(** * UnblockedHub: the dual-backend game store and its change reconciliation

    A shallow embedding of the data layer of the UnblockedHub single-page
    application: the browser-local fallback store ([localStorageService]),
    the hosted store wrapper ([gameService], src/lib/supabase.ts) and the
    part of the [App] component that selects a store at start-up, subscribes
    to change events and decides when to raise the "new games" banner.

    Conventions of the embedding:
    - a JavaScript string is a [string]; [null] is [None];
    - the wall clock ([Date.now()], [new Date()]) is an oracle threaded
      through the state, read once per call in the order of the source;
    - the value kept under the storage key 'unblockedGames' is the
      collection itself: [JSON.parse] after [JSON.stringify] is the identity
      on arrays of records whose fields are all strings;
    - the answer of the hosted backend to a request is an input of the
      wrapper that issued it (the [{ data, error }] object the client
      library resolves with). *)

From stdpp Require Import base strings list pretty.
From Stdlib Require Import ZArith Lia Ascii.

Local Open Scope string_scope.
Local Open Scope Z_scope.

(** ** The record shape *)

(** [interface Game] (src/lib/supabase.ts, and its copy in the App file). *)
Record Game := mkGame {
  id : string;
  title : string;
  description : string;
  category : string;
  color : string;
  url : string;
  created_at : string;
  updated_at : string
}.

(** [Omit<Game, 'id' | 'created_at' | 'updated_at'>]: what a caller supplies
    to a create. *)
Record GameFields := mkFields {
  f_title : string;
  f_description : string;
  f_category : string;
  f_color : string;
  f_url : string
}.

(** [Partial<Omit<Game, 'id' | 'created_at' | 'updated_at'>>]: what a caller
    supplies to an update; [None] is an absent key. *)
Record GameUpdates := mkUpdates {
  u_title : option string;
  u_description : option string;
  u_category : option string;
  u_color : option string;
  u_url : option string
}.

#[export] Instance Game_eq_dec : EqDecision Game.
Proof. solve_decision. Defined.

#[export] Instance GameFields_eq_dec : EqDecision GameFields.
Proof. solve_decision. Defined.

(** The caller-supplied part of a stored record. *)
Definition fields_of (g : Game) : GameFields :=
  mkFields (title g) (description g) (category g) (color g) (url g).

(** [{ title: x }] as an update. *)
Definition only_title (x : string) : GameUpdates :=
  mkUpdates (Some x) None None None None.

(** ** The JavaScript runtime pieces the stores rely on *)

(** [Number.prototype.toString] on an integral time value: the decimal
    numeral, with a leading minus sign below zero. *)
Definition toString (n : Z) : string := pretty n.

(** [String.prototype.padStart (w, '0')] applied to the numeral of [n]. *)
Definition padStart0 (w : nat) (n : Z) : string :=
  let s := toString n in
  String.concat "" (replicate (w - String.length s) "0") +:+ s.

(** JavaScript's [a < b] on strings: lexicographic on the code units. *)
Definition str_lt (a b : string) : Prop := (a ?= b)%string = Lt.

(** *** The shape of a string *)

Definition is_digit (c : ascii) : bool := (("0" <=? c) && (c <=? "9"))%char.

Fixpoint all_digits (s : string) : bool :=
  match s with
  | EmptyString => true
  | String c s => is_digit c && all_digits s
  end.

(** A decimal numeral: one digit or more, after an optional minus sign. *)
Definition is_numeral (s : string) : bool :=
  match s with
  | EmptyString => false
  | String c r =>
      if Ascii.eqb c "-" then negb (bool_decide (r = "")) && all_digits r
      else all_digits s
  end.

(** [matches pat s]: [s] has the length of [pat], a digit wherever [pat]
    has the letter d, and the character of [pat] elsewhere. *)
Fixpoint matches (pat s : string) : bool :=
  match pat, s with
  | EmptyString, EmptyString => true
  | String p pat, String c s =>
      (if Ascii.eqb p "d" then is_digit c else Ascii.eqb p c) && matches pat s
  | _, _ => false
  end.

(** The simplified extended ISO 8601 format of ECMA-262, with a four-digit
    year or a signed six-digit one. *)
Definition is_iso8601 (s : string) : bool :=
  matches "dddd-dd-ddTdd:dd:dd.dddZ" s
  || matches "+dddddd-dd-ddTdd:dd:dd.dddZ" s
  || matches "-dddddd-dd-ddTdd:dd:dd.dddZ" s.

(** *** Fixed-width numerals, for reasoning about [padStart0] *)

(** The [w] low decimal digits of [x], most significant first, put in
    front of [s]. *)
Fixpoint dig (w : nat) (x : N) (s : string) : string :=
  match w with
  | O => s
  | S w => dig w (x `div` 10)%N (String (pretty_N_char (x `mod` 10)%N) s)
  end.

Definition zeros (k : nat) : string := String.concat "" (replicate k "0").

(** [w] times the letter d in front of [pat]. *)
Fixpoint ds (w : nat) (pat : string) : string :=
  match w with
  | O => pat
  | S w => String "d" (ds w pat)
  end.

(** The calendar arithmetic of ECMA-262 (section "Date objects"), on time
    values counted in milliseconds since 1970-01-01T00:00:00Z. Every
    division is a floor division, as in the standard. *)
Module Date.

Definition msPerDay : Z := 86400000.
Definition Day (t : Z) : Z := t / msPerDay.
Definition TimeWithinDay (t : Z) : Z := t mod msPerDay.

Definition DayFromYear (y : Z) : Z :=
  365 * (y - 1970) + (y - 1969) / 4 - (y - 1901) / 100 + (y - 1601) / 400.

Definition InLeapYear (y : Z) : Z :=
  if (y mod 4 =? 0) && (negb (y mod 100 =? 0) || (y mod 400 =? 0))
  then 1 else 0.

(** The largest [y] with [DayFromYear y <= d]: an estimate from the mean
    length of a year, corrected by at most one. *)
Definition YearFromDay (d : Z) : Z :=
  let y := 1970 + (400 * d) / 146097 in
  if d <? DayFromYear y then y - 1
  else if DayFromYear (y + 1) <=? d then y + 1
  else y.

Definition YearFromTime (t : Z) : Z := YearFromDay (Day t).
Definition DayWithinYear (t : Z) : Z := Day t - DayFromYear (YearFromTime t).

(** Month number, 0 for January. *)
Definition MonthFromTime (t : Z) : Z :=
  let d := DayWithinYear t in
  let l := InLeapYear (YearFromTime t) in
  if d <? 31 then 0
  else if d <? 59 + l then 1
  else if d <? 90 + l then 2
  else if d <? 120 + l then 3
  else if d <? 151 + l then 4
  else if d <? 181 + l then 5
  else if d <? 212 + l then 6
  else if d <? 243 + l then 7
  else if d <? 273 + l then 8
  else if d <? 304 + l then 9
  else if d <? 334 + l then 10
  else 11.

(** Day of the month, from 1. *)
Definition DateFromTime (t : Z) : Z :=
  let d := DayWithinYear t in
  let l := InLeapYear (YearFromTime t) in
  match MonthFromTime t with
  | 0 => d + 1
  | 1 => d - 30
  | 2 => d - 58 - l
  | 3 => d - 89 - l
  | 4 => d - 119 - l
  | 5 => d - 150 - l
  | 6 => d - 180 - l
  | 7 => d - 211 - l
  | 8 => d - 242 - l
  | 9 => d - 272 - l
  | 10 => d - 303 - l
  | _ => d - 333 - l
  end.

Definition HourFromTime (t : Z) : Z := (t / 3600000) mod 24.
Definition MinFromTime (t : Z) : Z := (t / 60000) mod 60.
Definition SecFromTime (t : Z) : Z := (t / 1000) mod 60.
Definition msFromTime (t : Z) : Z := t mod 1000.

(** The year part of the ISO format: four digits from year 0 to 9999, a
    sign and six digits outside. *)
Definition isoYear (y : Z) : string :=
  if (0 <=? y) && (y <=? 9999) then padStart0 4 y
  else (if y <? 0 then "-" else "+") +:+ padStart0 6 (Z.abs y).

(** [Date.prototype.toISOString] of the date whose time value is [t]:
    [YYYY-MM-DDTHH:mm:ss.sssZ]. *)
Definition toISOString (t : Z) : string :=
  isoYear (YearFromTime t) +:+ "-" +:+ padStart0 2 (MonthFromTime t + 1)
    +:+ "-" +:+ padStart0 2 (DateFromTime t)
    +:+ "T" +:+ padStart0 2 (HourFromTime t)
    +:+ ":" +:+ padStart0 2 (MinFromTime t)
    +:+ ":" +:+ padStart0 2 (SecFromTime t)
    +:+ "." +:+ padStart0 3 (msFromTime t) +:+ "Z".

(** The time values a [Date] can hold, and those whose year has four
    digits (from 0000-01-01T00:00:00.000Z to 9999-12-31T23:59:59.999Z). *)
Definition validTime (t : Z) : Prop :=
  -8640000000000000 <= t <= 8640000000000000.
Definition year0 : Z := -62167219200000.
Definition year10000 : Z := 253402300800000.
Definition fourDigitYear (t : Z) : Prop := year0 <= t < year10000.

(** The part of the ISO format after the year, digit group by digit
    group. *)
Definition isoRest (t : Z) : string :=
  String "-" (dig 2 (Z.to_N (MonthFromTime t + 1))
    (String "-" (dig 2 (Z.to_N (DateFromTime t))
      (String "T" (dig 2 (Z.to_N (HourFromTime t))
        (String ":" (dig 2 (Z.to_N (MinFromTime t))
          (String ":" (dig 2 (Z.to_N (SecFromTime t))
            (String "." (dig 3 (Z.to_N (msFromTime t)) "Z"))))))))))).

End Date.

(** ** The browser: shared local storage and the wall clock *)

(** The two storage keys the local store touches. 'unblockedGames' holds
    the serialised collection ([None] while the key is absent) and
    'gameUpdate' the sentinel written after every mutation. *)
Record LocalStorage := mkStorage {
  unblockedGames : option (list Game);
  gameUpdate : option string
}.

(** What the tabs of one browser share: the storage area and the clock.
    [clock k] is the time value returned by the [k]-th reading and
    [ticks] counts the readings made so far. *)
Record Browser := mkBrowser {
  localStorage : LocalStorage;
  clock : nat -> Z;
  ticks : nat
}.

(** An operation running in the browser. *)
Definition Async (A : Type) : Type := Browser -> A * Browser.

#[export] Instance Async_ret : MRet Async := fun A a w => (a, w).
#[export] Instance Async_bind : MBind Async :=
  fun A B f m w => let '(a, w') := m w in f a w'.

(** [Date.now()], and the time value of [new Date()]. *)
Definition Date_now : Async Z :=
  fun w => (clock w (ticks w), mkBrowser (localStorage w) (clock w) (S (ticks w))).

Definition getItem_unblockedGames : Async (option (list Game)) :=
  fun w => (unblockedGames (localStorage w), w).

Definition setItem_unblockedGames (games : list Game) : Async unit :=
  fun w => (tt, mkBrowser (mkStorage (Some games) (gameUpdate (localStorage w)))
                          (clock w) (ticks w)).

Definition setItem_gameUpdate (v : string) : Async unit :=
  fun w => (tt, mkBrowser (mkStorage (unblockedGames (localStorage w)) (Some v))
                          (clock w) (ticks w)).

(** Object spread [{ ...g, ...updates, updated_at: stamp }]: a key present
    in [updates] replaces the one of [g]. *)
Definition spread (g : Game) (updates : GameUpdates) (stamp : string) : Game :=
  {| id := id g;
     title := default (title g) (u_title updates);
     description := default (description g) (u_description updates);
     category := default (category g) (u_category updates);
     color := default (color g) (u_color updates);
     url := default (url g) (u_url updates);
     created_at := created_at g;
     updated_at := stamp |}.

(** ** The local fallback store *)

Module localStorageService.

Definition getGames : Async (list Game) :=
  stored ← getItem_unblockedGames;
  mret (default [] stored).

Definition addGame (game : GameFields) : Async (option Game) :=
  games ← getGames;
  t_id ← Date_now;
  t_created ← Date_now;
  t_updated ← Date_now;
  let newGame :=
    {| id := toString t_id;
       title := f_title game;
       description := f_description game;
       category := f_category game;
       color := f_color game;
       url := f_url game;
       created_at := Date.toISOString t_created;
       updated_at := Date.toISOString t_updated |} in
  _ ← setItem_unblockedGames (newGame :: games);
  t_signal ← Date_now;
  _ ← setItem_gameUpdate (toString t_signal);
  mret (Some newGame).

(** [games.findIndex (g => g.id === id)] together with the element it
    points at; [None] is the index -1. *)
Definition findIndex (i : string) (games : list Game) : option (nat * Game) :=
  list_find (fun g => id g = i) games.

Definition updateGame (i : string) (updates : GameUpdates)
  : Async (option Game) :=
  games ← getGames;
  match findIndex i games with
  | None => mret None
  | Some (gameIndex, g) =>
      t_updated ← Date_now;
      let updatedGame := spread g updates (Date.toISOString t_updated) in
      _ ← setItem_unblockedGames (<[gameIndex := updatedGame]> games);
      t_signal ← Date_now;
      _ ← setItem_gameUpdate (toString t_signal);
      mret (Some updatedGame)
  end.

Definition deleteGame (i : string) : Async bool :=
  games ← getGames;
  let filteredGames := filter (fun g => id g ≠ i) games in
  _ ← setItem_unblockedGames filteredGames;
  t_signal ← Date_now;
  _ ← setItem_gameUpdate (toString t_signal);
  mret true.

(** The listener [handleStorageChange] that [subscribeToChanges]
    installs: on a storage event for the sentinel key it re-reads the
    collection and hands it to the callback ([Some games]); other keys
    are ignored ([None]). *)
Definition handleStorageChange (key : string) : Async (option (list Game)) :=
  if bool_decide (key = "gameUpdate") then
    games ← getGames; mret (Some games)
  else mret None.

End localStorageService.

(** ** The hosted store wrapper (src/lib/supabase.ts) *)

(** The [{ data, error }] object a request to the hosted backend resolves
    with. *)
Record Reply (A : Type) := mkReply {
  data : option A;
  error : option string
}.
Arguments mkReply {A} _ _.
Arguments data {A} _.
Arguments error {A} _.

(** How the hosted backend answers the four requests the wrapper issues
    against the table 'games'. The patch of an update is the supplied
    fields together with the [updated_at] stamp the wrapper adds. *)
Record Hosted := mkHosted {
  select_desc : Reply (list Game);
  insert_single : GameFields -> Reply Game;
  update_single : string -> GameUpdates -> string -> Reply Game;
  delete_eq : string -> Reply unit
}.

(** How an awaited call ends: with a value, or with a thrown fault. *)
Inductive Completion (A : Type) :=
| Normal (a : A)
| Throw (e : string).
Arguments Normal {A} a.
Arguments Throw {A} e.

(** A value together with the lines written to the console meanwhile. *)
Definition Logged (A : Type) : Type := A * list string.

Module gameService.

Definition getGames (h : Hosted) : Logged (Completion (list Game)) :=
  let r := select_desc h in
  match error r with
  | Some e => (Normal [], ["Error fetching games: " +:+ e])
  | None => (Normal (default [] (data r)), [])
  end.

Definition addGame (game : GameFields) (h : Hosted)
  : Logged (Completion (option Game)) :=
  let r := insert_single h game in
  match error r with
  | Some e => (Normal None, ["Error adding game: " +:+ e])
  | None => (Normal (data r), [])
  end.

Definition updateGame (i : string) (updates : GameUpdates) (h : Hosted)
  : Async (Logged (Completion (option Game))) :=
  t_updated ← Date_now;
  let r := update_single h i updates (Date.toISOString t_updated) in
  match error r with
  | Some e => mret (Normal None, ["Error updating game: " +:+ e])
  | None => mret (Normal (data r), [])
  end.

Definition deleteGame (i : string) (h : Hosted) : Logged (Completion bool) :=
  let r := delete_eq h i in
  match error r with
  | Some e => (Normal false, ["Error deleting game: " +:+ e])
  | None => (Normal true, [])
  end.

End gameService.

(** ** Module evaluation of src/lib/supabase.ts *)

(** The two build-time variables read from [import.meta.env]. *)
Record Env := mkEnv {
  VITE_SUPABASE_URL : option string;
  VITE_SUPABASE_ANON_KEY : option string
}.

(** [!v] for a value that is a string or undefined. *)
Definition falsy (v : option string) : bool :=
  match v with
  | None => true
  | Some s => bool_decide (s = "")
  end.

Inductive Service := Remote | Local.

#[export] Instance Service_eq_dec : EqDecision Service.
Proof. solve_decision. Defined.

(** [await import('./lib/supabase')]: the module body throws when a
    variable is missing; otherwise it builds the client, which the client
    library may itself refuse ([createClient] is that library's answer). *)
Definition import_supabase (env : Env)
    (createClient : string -> string -> Completion unit) : Completion Service :=
  if falsy (VITE_SUPABASE_URL env) || falsy (VITE_SUPABASE_ANON_KEY env) then
    Throw "Missing Supabase environment variables"
  else
    match createClient (default "" (VITE_SUPABASE_URL env))
                       (default "" (VITE_SUPABASE_ANON_KEY env)) with
    | Normal _ => Normal Remote
    | Throw e => Throw e
    end.

(** ** The App component: store selection and change reconciliation *)

Module App.

(** The [useState] cells the data layer reads or writes. [gameService]
    is [null] ([None]) until the hosted module has been imported. *)
Record State := mkState {
  gameService : option Service;
  isSupabaseConnected : bool;
  games : list Game;
  showAddGame : bool;
  editingGame : option Game;
  showNotification : bool;
  isOnline : bool;
  isLoading : bool;
  lastGameCount : nat;
  newGame : GameFields
}.

Definition blankGame : GameFields := mkFields "" "" "Arcade" "bg-blue-500" "".

(** The initial values passed to [useState]. *)
Definition initial : State :=
  mkState None false [] false None false true true 0%nat blankGame.

Definition setGameService (v : option Service) (s : State) : State :=
  mkState v (isSupabaseConnected s) (games s) (showAddGame s) (editingGame s)
          (showNotification s) (isOnline s) (isLoading s) (lastGameCount s) (newGame s).
Definition setIsSupabaseConnected (v : bool) (s : State) : State :=
  mkState (gameService s) v (games s) (showAddGame s) (editingGame s)
          (showNotification s) (isOnline s) (isLoading s) (lastGameCount s) (newGame s).
Definition setGames (v : list Game) (s : State) : State :=
  mkState (gameService s) (isSupabaseConnected s) v (showAddGame s) (editingGame s)
          (showNotification s) (isOnline s) (isLoading s) (lastGameCount s) (newGame s).
Definition setShowAddGame (v : bool) (s : State) : State :=
  mkState (gameService s) (isSupabaseConnected s) (games s) v (editingGame s)
          (showNotification s) (isOnline s) (isLoading s) (lastGameCount s) (newGame s).
Definition setEditingGame (v : option Game) (s : State) : State :=
  mkState (gameService s) (isSupabaseConnected s) (games s) (showAddGame s) v
          (showNotification s) (isOnline s) (isLoading s) (lastGameCount s) (newGame s).
Definition setShowNotification (v : bool) (s : State) : State :=
  mkState (gameService s) (isSupabaseConnected s) (games s) (showAddGame s) (editingGame s)
          v (isOnline s) (isLoading s) (lastGameCount s) (newGame s).
Definition setIsOnline (v : bool) (s : State) : State :=
  mkState (gameService s) (isSupabaseConnected s) (games s) (showAddGame s) (editingGame s)
          (showNotification s) v (isLoading s) (lastGameCount s) (newGame s).
Definition setIsLoading (v : bool) (s : State) : State :=
  mkState (gameService s) (isSupabaseConnected s) (games s) (showAddGame s) (editingGame s)
          (showNotification s) (isOnline s) v (lastGameCount s) (newGame s).
Definition setLastGameCount (v : nat) (s : State) : State :=
  mkState (gameService s) (isSupabaseConnected s) (games s) (showAddGame s) (editingGame s)
          (showNotification s) (isOnline s) (isLoading s) v (newGame s).
Definition setNewGame (v : GameFields) (s : State) : State :=
  mkState (gameService s) (isSupabaseConnected s) (games s) (showAddGame s) (editingGame s)
          (showNotification s) (isOnline s) (isLoading s) (lastGameCount s) v.

(** One mounted App: its state cells, the browser it runs in, and what
    it has written to the console and shown in alert boxes. *)
Record System := mkSystem {
  app : State;
  browser : Browser;
  console : list string;
  alerts : list string
}.

Definition mount (w : Browser) : System := mkSystem initial w [] [].

Definition render (f : State -> State) (y : System) : System :=
  mkSystem (f (app y)) (browser y) (console y) (alerts y).
Definition log (lines : list string) (y : System) : System :=
  mkSystem (app y) (browser y) (console y ++ lines) (alerts y).
Definition alert (line : string) (y : System) : System :=
  mkSystem (app y) (browser y) (console y) (alerts y ++ [line]).
Definition withBrowser (w : Browser) (y : System) : System :=
  mkSystem (app y) w (console y) (alerts y).

(** [getGameService = () => gameService || localStorageService]. *)
Definition getGameService (s : State) : Service :=
  default Local (gameService s).

(** *** The uniform store interface the handlers call through *)

Definition getGames (v : Service) (h : Hosted)
  : Async (Logged (Completion (list Game))) :=
  match v with
  | Remote => mret (gameService.getGames h)
  | Local => l ← localStorageService.getGames; mret (Normal l, [])
  end.

Definition addGame (v : Service) (game : GameFields) (h : Hosted)
  : Async (Logged (Completion (option Game))) :=
  match v with
  | Remote => mret (gameService.addGame game h)
  | Local => r ← localStorageService.addGame game; mret (Normal r, [])
  end.

Definition updateGame (v : Service) (i : string) (updates : GameUpdates)
    (h : Hosted) : Async (Logged (Completion (option Game))) :=
  match v with
  | Remote => gameService.updateGame i updates h
  | Local => r ← localStorageService.updateGame i updates; mret (Normal r, [])
  end.

Definition deleteGame (v : Service) (i : string) (h : Hosted)
  : Async (Logged (Completion bool)) :=
  match v with
  | Remote => mret (gameService.deleteGame i h)
  | Local => r ← localStorageService.deleteGame i; mret (Normal r, [])
  end.

(** *** Start-up: selecting the store *)

(** The catch branch of [initializeSupabase]. *)
Definition fallback (y : System) : System :=
  let y := log ["Supabase not available, using localStorage fallback"] y in
  let y := render (setIsSupabaseConnected false) y in
  let '(fetchedGames, w) := localStorageService.getGames (browser y) in
  let y := withBrowser w y in
  render (fun s => setLastGameCount (length fetchedGames) (setGames fetchedGames s)) y.

(** [initializeSupabase], run once by the mount effect. *)
Definition initializeSupabase (env : Env)
    (createClient : string -> string -> Completion unit) (h : Hosted)
    (y : System) : System :=
  let y := render (setIsLoading true) y in
  let y :=
    match import_supabase env createClient with
    | Normal supabaseModule =>
        let y := render (setGameService (Some supabaseModule)) y in
        let y := render (setIsSupabaseConnected true) y in
        let '(c, lines) := gameService.getGames h in
        let y := log lines y in
        match c with
        | Normal fetchedGames =>
            render (fun s => setLastGameCount (length fetchedGames)
                               (setGames fetchedGames s)) y
        | Throw _ => fallback y
        end
    | Throw _ => fallback y
    end in
  render (setIsLoading false) y.

(** *** The subscription effect *)

(** The effect with dependencies [gameService, isSupabaseConnected]:
    [None] when its guard returns early, otherwise the service whose
    [subscribeToChanges] it calls. Being a function of the two
    dependencies, it is the listener in force in any rendered state. *)
Definition subscriptionEffect (s : State) : option Service :=
  if negb (bool_decide (is_Some (gameService s))) && negb (isSupabaseConnected s)
  then None
  else Some (getGameService s).

(** The callback handed to [subscribeToChanges]. *)
Definition onChanges (updatedGames : list Game) (s : State) : State :=
  let prevGames := games s in
  let s :=
    if bool_decide (0 < length prevGames)%nat
       && bool_decide (length prevGames < length updatedGames)%nat
    then setShowNotification true s else s in
  let s := setLastGameCount (length updatedGames) s in
  setGames updatedGames s.

(** A change event pushed by the hosted backend on the channel
    'games-changes': the wrapper re-runs [getGames] and calls back. *)
Definition postgres_changes (h : Hosted) (y : System) : System :=
  match subscriptionEffect (app y) with
  | Some Remote =>
      let '(c, lines) := gameService.getGames h in
      let y := log lines y in
      match c with
      | Normal updatedGames => render (onChanges updatedGames) y
      | Throw _ => y
      end
  | _ => y
  end.

(** A 'storage' event dispatched to this tab's window for [key]. *)
Definition storage_event (key : string) (y : System) : System :=
  match subscriptionEffect (app y) with
  | Some Local =>
      let '(r, w) := localStorageService.handleStorageChange key (browser y) in
      let y := withBrowser w y in
      match r with
      | Some updatedGames => render (onChanges updatedGames) y
      | None => y
      end
  | _ => y
  end.

(** *** The handlers behind the admin controls *)

Definition truthy (v : string) : bool := negb (bool_decide (v = "")).

Definition all_fields (f : GameFields) : GameUpdates :=
  mkUpdates (Some (f_title f)) (Some (f_description f)) (Some (f_category f))
            (Some (f_color f)) (Some (f_url f)).

Definition handleAddGame (h : Hosted) (y : System) : System :=
  let s := app y in
  if truthy (f_title (newGame s)) && truthy (f_url (newGame s)) then
    let '((c, lines), w) := addGame (getGameService s) (newGame s) h (browser y) in
    let y := log lines (withBrowser w y) in
    match c with
    | Normal (Some addedGame) =>
        render (fun s =>
                  let newGames := addedGame :: games s in
                  setShowAddGame false
                    (setNewGame blankGame
                       (setLastGameCount (length newGames) (setGames newGames s)))) y
    | _ => y
    end
  else y.

Definition handleEditGame (game : Game) (y : System) : System :=
  render (fun s => setNewGame (fields_of game) (setEditingGame (Some game) s)) y.

Definition handleUpdateGame (h : Hosted) (y : System) : System :=
  let s := app y in
  match editingGame s with
  | Some editing =>
      if truthy (f_title (newGame s)) && truthy (f_url (newGame s)) then
        let '((c, lines), w) :=
          updateGame (getGameService s) (id editing) (all_fields (newGame s)) h
                     (browser y) in
        let y := log lines (withBrowser w y) in
        match c with
        | Normal (Some updatedGame) =>
            render (fun s =>
                      let newGames :=
                        map (fun game => if bool_decide (id game = id editing)
                                         then updatedGame else game) (games s) in
                      setNewGame blankGame
                        (setEditingGame None
                           (setLastGameCount (length newGames) (setGames newGames s)))) y
        | _ => y
        end
      else y
  | None => y
  end.

Definition handleDeleteGame (gameId : string) (confirmed : bool) (h : Hosted)
    (y : System) : System :=
  if confirmed then
    let '((c, lines), w) := deleteGame (getGameService (app y)) gameId h (browser y) in
    let y := log lines (withBrowser w y) in
    match c with
    | Normal true =>
        render (fun s =>
                  let newGames := filter (fun game => id game ≠ gameId) (games s) in
                  setLastGameCount (length newGames) (setGames newGames s)) y
    | Normal false => alert "Failed to delete game. Please try again." y
    | Throw _ => y
    end
  else y.

Definition handleReloadGames (h : Hosted) (y : System) : System :=
  let y := render (setIsLoading true) y in
  let '((c, lines), w) := getGames (getGameService (app y)) h (browser y) in
  let y := log lines (withBrowser w y) in
  let y :=
    match c with
    | Normal fetchedGames =>
        render (fun s => setLastGameCount (length fetchedGames)
                           (setGames fetchedGames s)) y
    | Throw e => log ["Failed to reload games: " +:+ e] y
    end in
  let y := render (setIsLoading false) y in
  render (setShowNotification false) y.

Definition handleDismissNotification (y : System) : System :=
  render (setShowNotification false) y.

(** *** A running session *)

(** A mutation made through the local store by another tab of the same
    browser. *)
Inductive TabOp :=
| TabAdd (game : GameFields)
| TabUpdate (i : string) (updates : GameUpdates)
| TabDelete (i : string).

Definition other_tab (op : TabOp) (y : System) : System :=
  match op with
  | TabAdd game => withBrowser (snd (localStorageService.addGame game (browser y))) y
  | TabUpdate i u => withBrowser (snd (localStorageService.updateGame i u (browser y))) y
  | TabDelete i => withBrowser (snd (localStorageService.deleteGame i (browser y))) y
  end.

(** What can happen to a mounted App once start-up has completed. An
    event that reaches the hosted backend carries the way the backend
    answers at that moment. *)
Inductive Event :=
| PostgresChanges (h : Hosted)
| StorageEvent (key : string)
| OtherTab (op : TabOp)
| TypeNewGame (f : GameFields)
| OpenAddGame
| ClickEdit (game : Game)
| ClickAdd (h : Hosted)
| ClickUpdate (h : Hosted)
| ClickDelete (gameId : string) (confirmed : bool) (h : Hosted)
| ClickReload (h : Hosted)
| ClickLater
| Online (b : bool).

Definition step (y : System) (e : Event) : System :=
  match e with
  | PostgresChanges h => postgres_changes h y
  | StorageEvent key => storage_event key y
  | OtherTab op => other_tab op y
  | TypeNewGame f => render (setNewGame f) y
  | OpenAddGame => render (setShowAddGame true) y
  | ClickEdit game => handleEditGame game y
  | ClickAdd h => handleAddGame h y
  | ClickUpdate h => handleUpdateGame h y
  | ClickDelete gameId confirmed h => handleDeleteGame gameId confirmed h y
  | ClickReload h => handleReloadGames h y
  | ClickLater => handleDismissNotification y
  | Online b => render (setIsOnline b) y
  end.

Definition run (y : System) (es : list Event) : System := fold_left step es y.

End App.

(** ** Notions used to state the properties *)

(** The collection a [list] of the local store returns in [w]. *)
Definition stored (w : Browser) : list Game := fst (localStorageService.getGames w).

(** The record [addGame] builds from the three clock readings it makes. *)
Definition created (game : GameFields) (w : Browser) : Game :=
  {| id := toString (clock w (ticks w));
     title := f_title game;
     description := f_description game;
     category := f_category game;
     color := f_color game;
     url := f_url game;
     created_at := Date.toISOString (clock w (S (ticks w)));
     updated_at := Date.toISOString (clock w (S (S (ticks w)))) |}.

(** The session that follows an attempt to acquire the hosted store. *)
Definition session (env : Env)
    (createClient : string -> string -> Completion unit) (h : Hosted) (w : Browser) (es : list App.Event)
  : App.System :=
  App.run (App.initializeSupabase env createClient h (App.mount w)) es.

(** The same event with the answers of the hosted backend replaced. *)
Definition reanswer (h' : Hosted) (e : App.Event) : App.Event :=
  match e with
  | App.PostgresChanges _ => App.PostgresChanges h'
  | App.ClickAdd _ => App.ClickAdd h'
  | App.ClickUpdate _ => App.ClickUpdate h'
  | App.ClickDelete gameId confirmed _ => App.ClickDelete gameId confirmed h'
  | App.ClickReload _ => App.ClickReload h'
  | _ => e
  end.

(** *** Sample data *)

(** A browser with nothing stored whose clock stands still at [t], as
    within one millisecond. *)
Definition still (t : Z) : Browser :=
  mkBrowser (mkStorage None None) (fun _ => t) 0.

Definition maze : GameFields :=
  mkFields "Maze" "" "Puzzle" "c1" "https://x/maze".
Definition pong : GameFields :=
  mkFields "Pong" "bat and ball" "Arcade" "bg-red-500" "https://x/pong".

(** A hosted backend that lists [l] and refuses every write. *)
Definition listing (l : list Game) : Hosted :=
  mkHosted (mkReply (Some l) None)
           (fun _ => mkReply None (Some "read only"))
           (fun _ _ _ => mkReply None (Some "read only"))
           (fun _ => mkReply None (Some "read only")).

(** A hosted backend that cannot be reached. *)
Definition unreachable : Hosted :=
  mkHosted (mkReply None (Some "Failed to fetch"))
           (fun _ => mkReply None (Some "Failed to fetch"))
           (fun _ _ _ => mkReply None (Some "Failed to fetch"))
           (fun _ => mkReply None (Some "Failed to fetch")).

Definition row (i : string) (f : GameFields) (stamp : string) : Game :=
  mkGame i (f_title f) (f_description f) (f_category f) (f_color f) (f_url f)
         stamp stamp.

Definition configured : Env :=
  mkEnv (Some "https://project.supabase.co") (Some "anon-key").
Definition unconfigured : Env := mkEnv None None.
Definition client_ok : string -> string -> Completion unit :=
  fun _ _ => Normal tt.

(** Two rows as the hosted backend returns them, an App that displays a
    given collection, and a short session of an administrator while
    another tab is at work. *)
Definition g_maze : Game := row "7f3c" maze "2026-11-01T19:06:40.123+00:00".
Definition g_pong : Game := row "a91e" pong "2026-11-01T19:07:02.500+00:00".

Definition showing (l : list Game) : App.State :=
  App.setLastGameCount (length l) (App.setGames l (App.setIsLoading false App.initial)).

Definition busy_session : list App.Event :=
  [App.OtherTab (App.TabAdd maze); App.StorageEvent "gameUpdate";
   App.TypeNewGame pong; App.ClickAdd unreachable;
   App.PostgresChanges (listing [g_maze]); App.ClickReload unreachable].

(** ** The local store under a sequence of mutations *)

(** One mutation of the local store, whichever tab makes it. *)
Definition local_op (op : App.TabOp) (w : Browser) : Browser :=
  match op with
  | App.TabAdd game => snd (localStorageService.addGame game w)
  | App.TabUpdate i u => snd (localStorageService.updateGame i u w)
  | App.TabDelete i => snd (localStorageService.deleteGame i w)
  end.

Definition local_ops (ops : list App.TabOp) (w : Browser) : Browser :=
  fold_left (fun w op => local_op op w) ops w.

(** A clock that shows a later time at every reading. *)
Definition advancing (w : Browser) : Prop :=
  forall j k, (j < k)%nat -> clock w j < clock w k.

(** Every stored id is the numeral of a clock reading already made. *)
Definition stamped_ids (w : Browser) : Prop :=
  forall i, i ∈ map id (stored w) ->
    exists k, (k < ticks w)%nat /\ i = toString (clock w k).

(** The stored records carry, from the front, the ISO strings of the
    clock readings [ks]. *)
Definition created_at_readings (w : Browser) (ks : list nat) : Prop :=
  map created_at (stored w) = map (fun k => Date.toISOString (clock w k)) ks.

(** Strictly descending, for tick numbers and for strings. *)
Fixpoint descending (ks : list nat) : Prop :=
  match ks with
  | [] => True
  | k :: ks' => (forall j, j ∈ ks' -> (j < k)%nat) /\ descending ks'
  end.

Fixpoint newest_first (stamps : list string) : Prop :=
  match stamps with
  | [] => True
  | s :: rest => (forall r, r ∈ rest -> str_lt r s) /\ newest_first rest
  end.

(** An event of a session that is not the work of another tab. *)
Definition solo (e : App.Event) : Prop :=
  match e with
  | App.OtherTab _ => False
  | _ => True
  end.

(** A browser with nothing stored whose clock shows [t] at the first
    reading and a millisecond more at each later one. *)
Definition ticking (t : Z) : Browser :=
  mkBrowser (mkStorage None None) (fun k => t + Z.of_nat k) 0.

(** ** More of the App component: filter, keyboard, what is on the page *)

(** [s.includes(sub)]: [sub] occurs in [s] as a run of consecutive code
    units. *)
Fixpoint includes (s sub : string) : bool :=
  String.prefix sub s
  || match s with
     | EmptyString => false
     | String _ r => includes r sub
     end.

Fixpoint drop_units (n : nat) (s : string) : string :=
  match n, s with
  | O, _ => s
  | S n, EmptyString => EmptyString
  | S n, String _ r => drop_units n r
  end.

(** [s.slice(-n)]: the last [n] code units of [s], all of [s] when it has
    fewer. *)
Definition slice_last (n : nat) (s : string) : string :=
  drop_units (String.length s - n) s.

Module Page.

(** The remaining [useState] cells of the component, and the tabs it has
    opened with [window.open]. *)
Record UI := mkUI {
  selectedCategory : string;
  searchTerm : string;
  selectedGame : option Game;
  isAdminMode : bool;
  secretSequence : string;
  opened : list string
}.

Definition initial : UI := mkUI "All" "" None false "" [].

Definition setSelectedGame (v : option Game) (u : UI) : UI :=
  mkUI (selectedCategory u) (searchTerm u) v (isAdminMode u) (secretSequence u)
       (opened u).
Definition setIsAdminMode (v : bool) (u : UI) : UI :=
  mkUI (selectedCategory u) (searchTerm u) (selectedGame u) v (secretSequence u)
       (opened u).
Definition setSecretSequence (v : string) (u : UI) : UI :=
  mkUI (selectedCategory u) (searchTerm u) (selectedGame u) (isAdminMode u) v
       (opened u).
Definition window_open (target : string) (u : UI) : UI :=
  mkUI (selectedCategory u) (searchTerm u) (selectedGame u) (isAdminMode u)
       (secretSequence u) (opened u ++ [target]).

Section Filter.

(** [String.prototype.toLowerCase], a function of the runtime. *)
Variable toLowerCase : string -> string.

(** [filteredGames]: the cards of the grid. *)
Definition filteredGames (games : list Game) (u : UI) : list Game :=
  List.filter
    (fun game =>
       let matchesCategory :=
         bool_decide (selectedCategory u = "All")
         || bool_decide (category game = selectedCategory u) in
       let matchesSearch :=
         includes (toLowerCase (title game)) (toLowerCase (searchTerm u))
         || includes (toLowerCase (description game)) (toLowerCase (searchTerm u)) in
       matchesCategory && matchesSearch)
    games.

(** What the main area of the page shows. *)
Definition showsSpinner (s : App.State) : bool := App.isLoading s.

Definition showsGrid (s : App.State) : bool :=
  negb (App.isLoading s) && bool_decide (0 < length (App.games s))%nat.

(** The cards on the page: those of the grid when it is shown. *)
Definition cards (s : App.State) (u : UI) : list Game :=
  if showsGrid s then filteredGames (App.games s) u else [].

(** "No games available yet". *)
Definition showsNoGames (s : App.State) : bool :=
  negb (showsGrid s) && negb (App.isLoading s).

(** "No games found matching your search." *)
Definition showsNoMatch (s : App.State) (u : UI) : bool :=
  bool_decide (length (filteredGames (App.games s) u) = 0%nat)
  && bool_decide (0 < length (App.games s))%nat
  && negb (App.isLoading s).

End Filter.

(** The connection badge in the corner of the page. *)
Inductive Badge := CloudSync | Offline | LocalOnly.

Definition badge (s : App.State) : Badge :=
  if App.isSupabaseConnected s && App.isOnline s then CloudSync
  else if App.isSupabaseConnected s then Offline
  else LocalOnly.

(** The listener on 'keydown'. *)
Definition handleKeyPress (key : string) (su : App.State * UI) : App.State * UI :=
  let '(s, u) := su in
  let u :=
    if bool_decide (key = "\") then window_open "https://classroom.google.com" u
    else u in
  let '(s, u) :=
    if bool_decide (key = "Escape") then
      (App.setEditingGame None (App.setShowAddGame false s), setSelectedGame None u)
    else (s, u) in
  let newSequence := secretSequence u +:+ key in
  let u :=
    if bool_decide (10 < String.length newSequence)%nat
    then setSecretSequence (slice_last 10 newSequence) u
    else setSecretSequence newSequence u in
  let u :=
    if includes newSequence "admin123"
    then setSecretSequence "" (setIsAdminMode true u)
    else u in
  (s, u).

Definition handleGameClick (game : Game) (u : UI) : UI :=
  if negb (isAdminMode u) then setSelectedGame (Some game) u else u.

Definition handleBackToGames (u : UI) : UI := setSelectedGame None u.

Definition handleExitAdminMode (su : App.State * UI) : App.State * UI :=
  let '(s, u) := su in
  (App.setEditingGame None (App.setShowAddGame false s), setIsAdminMode false u).

(** The keys of a word pressed one after the other. *)
Definition type_keys (keys : list string) (su : App.State * UI) : App.State * UI :=
  fold_left (fun su key => handleKeyPress key su) keys su.

End Page.

(** Lower-casing of the letters A to Z, for strings of ASCII characters. *)
Definition ascii_lower (c : ascii) : ascii :=
  if (("A" <=? c) && (c <=? "Z"))%char
  then ascii_of_nat (nat_of_ascii c + 32) else c.

Fixpoint ascii_toLowerCase (s : string) : string :=
  match s with
  | EmptyString => EmptyString
  | String c r => String (ascii_lower c) (ascii_toLowerCase r)
  end.

(** The stored records were created at the clock readings [ks], newest
    first, all of them readings already made. *)
Definition created_in_order (w : Browser) (ks : list nat) : Prop :=
  created_at_readings w ks /\ descending ks
  /\ forall k, k ∈ ks -> (k < ticks w)%nat.

(** What a session on the local store keeps while no other tab writes. *)
Definition in_step (y : App.System) : Prop :=
  App.gameService (App.app y) = None
  /\ App.isSupabaseConnected (App.app y) = false
  /\ App.games (App.app y) = stored (App.browser y)
  /\ advancing (App.browser y) /\ stamped_ids (App.browser y)
  /\ NoDup (map id (stored (App.browser y))).

(** While the word is being typed: admin mode is on already, or the
    buffer ends with what has been typed of it. *)
Definition typed (done : string) (u : Page.UI) : Prop :=
  Page.isAdminMode u = true \/ exists a, Page.secretSequence u = a +:+ done.

(** *** More sample data *)

(** A hosted backend that lists [l] and answers every write with the row
    [r]. *)
Definition accepting (r : Game) (l : list Game) : Hosted :=
  mkHosted (mkReply (Some l) None)
           (fun _ => mkReply (Some r) None)
           (fun _ _ _ => mkReply (Some r) None)
           (fun _ => mkReply (Some tt) None).

Definition busy_store : list App.TabOp :=
  [App.TabAdd maze; App.TabAdd pong;
   App.TabUpdate "1793560000123" (only_title "Labyrinth");
   App.TabDelete "1793560000127"; App.TabAdd pong].

Definition admin_session : list App.Event :=
  [App.TypeNewGame maze; App.ClickAdd unreachable;
   App.TypeNewGame pong; App.ClickAdd unreachable;
   App.ClickDelete "1793560000123" true unreachable;
   App.ClickReload unreachable].

(** * Properties *)

(** ** Numerals and ISO strings *)

Section Numerals.

Lemma zeros_S k : zeros (S k) = String "0"%char (zeros k).
Proof. unfold zeros. simpl. by destruct k. Qed.

Lemma append_cons c s t : String c s +:+ t = String c (s +:+ t).
Proof. reflexivity. Qed.

Lemma zeros_snoc k s : zeros k +:+ String "0"%char s = String "0"%char (zeros k +:+ s).
Proof.
  induction k as [|k IH]; [done|].
  rewrite zeros_S, !append_cons. by rewrite IH.
Qed.

Lemma dig_pretty w : forall x s,
  (x < 10 ^ N.of_nat w)%N ->
  exists k, dig w x s = zeros k +:+ pretty_N_go x s
         /\ (String.length (pretty_N_go x s) + k = w + String.length s)%nat.
Proof.
  induction w as [|w IH]; intros x s Hx.
  - assert (x = 0%N) as -> by (simpl in Hx; lia).
    exists 0%nat. by rewrite pretty_N_go_0.
  - assert (Hdiv : (x `div` 10 < 10 ^ N.of_nat w)%N).
    { apply N.Div0.div_lt_upper_bound.
      rewrite <- N.pow_succ_r'. by rewrite <- Nat2N.inj_succ. }
    destruct (IH (x `div` 10)%N (String (pretty_N_char (x `mod` 10)%N) s) Hdiv)
      as (k & Heq & Hlen).
    destruct (decide (x = 0%N)) as [->|Hne].
    + exists (S k). cbn [dig]. change (0 `div` 10)%N with 0%N in *.
      rewrite pretty_N_go_0 in *. cbn [String.length] in Hlen.
      rewrite Heq, zeros_S, append_cons, zeros_snoc.
      split; [done|lia].
    + exists k. cbn [dig]. rewrite (pretty_N_go_step x) by lia.
      split; [done|]. cbn [String.length] in Hlen. lia.
Qed.

Lemma string_app_nil (s : string) : s +:+ "" = s.
Proof. induction s as [|c s IH]; [done|]. by rewrite append_cons, IH. Qed.

Lemma toString_nonneg (n : Z) :
  0 <= n -> toString n = if decide (n = 0) then "0" else pretty_N_go (Z.to_N n) "".
Proof.
  intros Hn. destruct n as [|p|p]; [done| |lia].
  rewrite decide_False by done.
  unfold toString, pretty, pretty_Z, pretty, pretty_positive, pretty, pretty_N.
  by rewrite decide_False.
Qed.

Lemma padStart0_dig (w : nat) (n : Z) :
  (0 < w)%nat -> 0 <= n < 10 ^ Z.of_nat w ->
  padStart0 w n = dig w (Z.to_N n) "".
Proof.
  intros Hw Hn.
  assert (Hx : (Z.to_N n < 10 ^ N.of_nat w)%N).
  { apply N2Z.inj_lt. rewrite N2Z.inj_pow, Z2N.id, nat_N_Z by lia. simpl. lia. }
  destruct (dig_pretty w (Z.to_N n) "" Hx) as (k & Heq & Hlen).
  rewrite Heq. unfold padStart0. fold (zeros (w - String.length (toString n))).
  rewrite toString_nonneg by lia.
  destruct (decide (n = 0)) as [->|Hne].
  - change (Z.to_N 0) with 0%N in *. rewrite pretty_N_go_0 in *.
    cbn [String.length] in *.
    destruct w as [|w]; [lia|]. replace (S w - 1)%nat with w by lia.
    replace k with (S w) by lia.
    by rewrite zeros_S, append_cons, <- zeros_snoc.
  - cbn [String.length] in Hlen.
    replace (w - String.length (pretty_N_go (Z.to_N n) ""))%nat with k by lia.
    done.
Qed.

Lemma dig_app w : forall x s r, dig w x s +:+ r = dig w x (s +:+ r).
Proof. induction w as [|w IH]; intros; cbn [dig]; [done|]. by rewrite IH, append_cons. Qed.

Lemma dig_length w : forall x s, String.length (dig w x s) = (w + String.length s)%nat.
Proof. induction w as [|w IH]; intros; cbn [dig]; [done|]. rewrite IH. cbn [String.length]. lia. Qed.

Lemma pretty_N_char_compare (a b : N) :
  (a < 10)%N -> (b < 10)%N ->
  Ascii.compare (pretty_N_char a) (pretty_N_char b) = (a ?= b)%N.
Proof.
  intros Ha Hb.
  assert (a = 0 \/ a = 1 \/ a = 2 \/ a = 3 \/ a = 4 \/ a = 5 \/ a = 6 \/ a = 7
          \/ a = 8 \/ a = 9)%N as Ea by lia.
  assert (b = 0 \/ b = 1 \/ b = 2 \/ b = 3 \/ b = 4 \/ b = 5 \/ b = 6 \/ b = 7
          \/ b = 8 \/ b = 9)%N as Eb by lia.
  destruct Ea as [->|[->|[->|[->|[->|[->|[->|[->|[->| ->]]]]]]]]];
    destruct Eb as [->|[->|[->|[->|[->|[->|[->|[->|[->| ->]]]]]]]]];
    reflexivity.
Qed.

Lemma compare_cons c1 c2 s1 s2 :
  (String c1 s1 ?= String c2 s2)%string =
  match Ascii.compare c1 c2 with Eq => (s1 ?= s2)%string | r => r end.
Proof. simpl. by destruct (Ascii.compare c1 c2). Qed.

Lemma dig_compare w : forall x y s s',
  (x < 10 ^ N.of_nat w)%N -> (y < 10 ^ N.of_nat w)%N ->
  (dig w x s ?= dig w y s')%string =
  match (x ?= y)%N with Eq => (s ?= s')%string | r => r end.
Proof.
  induction w as [|w IH]; intros x y s s' Hx Hy.
  - assert (x = 0%N) as -> by (simpl in Hx; lia).
    assert (y = 0%N) as -> by (simpl in Hy; lia). done.
  - rewrite Nat2N.inj_succ, N.pow_succ_r' in Hx, Hy.
    cbn [dig]. rewrite IH by (apply N.Div0.div_lt_upper_bound; assumption).
    rewrite compare_cons, pretty_N_char_compare by (apply N.mod_lt; lia).
    pose proof (N.div_mod x 10 ltac:(lia)) as Dx.
    pose proof (N.div_mod y 10 ltac:(lia)) as Dy.
    pose proof (N.mod_lt x 10 ltac:(lia)) as Mx.
    pose proof (N.mod_lt y 10 ltac:(lia)) as My.
    clear IH Hx Hy.
    set (a := (x `div` 10)%N) in *. set (b := (x `mod` 10)%N) in *.
    set (c := (y `div` 10)%N) in *. set (d := (y `mod` 10)%N) in *.
    clearbody a b c d.
    destruct (N.compare_spec a c); destruct (N.compare_spec b d);
      destruct (N.compare_spec x y); try reflexivity; exfalso; lia.
Qed.

Lemma dig_lt_head w x y s s' :
  (x < y)%N -> (y < 10 ^ N.of_nat w)%N -> str_lt (dig w x s) (dig w y s').
Proof.
  intros Hlt Hy. unfold str_lt.
  rewrite dig_compare; [|by eapply N.lt_trans|assumption].
  by apply N.compare_lt_iff in Hlt as ->.
Qed.

Lemma dig_lt_tail w x s s' :
  (x < 10 ^ N.of_nat w)%N -> str_lt s s' -> str_lt (dig w x s) (dig w x s').
Proof.
  intros Hx Hlt. unfold str_lt. rewrite dig_compare by assumption.
  by rewrite N.compare_refl.
Qed.

Lemma str_lt_cons c s s' : str_lt s s' -> str_lt (String c s) (String c s').
Proof.
  unfold str_lt. rewrite compare_cons. unfold Ascii.compare.
  by rewrite N.compare_refl.
Qed.

Lemma ds_snoc w pat : ds (S w) pat = ds w (String "d" pat).
Proof. induction w as [|w IH]; [done|]. cbn [ds] in *. by rewrite IH. Qed.

Lemma is_digit_pretty_N_char x : is_digit (pretty_N_char x) = true.
Proof.
  unfold pretty_N_char.
  destruct x as [|p]; [done|]. do 4 (destruct p as [p|p|]; try done).
Qed.

Lemma matches_dig w : forall pat x s,
  matches (ds w pat) (dig w x s) = matches pat s.
Proof.
  induction w as [|w IH]; intros pat x s; [done|].
  rewrite ds_snoc. cbn [dig]. rewrite IH. cbn [matches].
  by rewrite is_digit_pretty_N_char.
Qed.

Lemma matches_cons (c : ascii) pat s :
  Ascii.eqb c "d" = false ->
  matches (String c pat) (String c s) = matches pat s.
Proof. intros H. cbn [matches]. by rewrite H, Ascii.eqb_refl. Qed.

End Numerals.

(** ** The calendar *)

Section Calendar.

Import Date.

Lemma DayFromYear_mono a b : a <= b -> DayFromYear a <= DayFromYear b.
Proof. unfold DayFromYear. intros. Z.to_euclidean_division_equations. lia. Qed.

Lemma DayFromYear_succ y : DayFromYear (y + 1) = DayFromYear y + 365 + InLeapYear y.
Proof.
  unfold DayFromYear, InLeapYear.
  destruct (y mod 4 =? 0) eqn:H4; destruct (y mod 100 =? 0) eqn:H100;
  destruct (y mod 400 =? 0) eqn:H400; simpl;
  rewrite ?Z.eqb_eq, ?Z.eqb_neq in *; Z.to_euclidean_division_equations; lia.
Qed.

Lemma InLeapYear_range y : 0 <= InLeapYear y <= 1.
Proof. unfold InLeapYear. case_match; lia. Qed.

Lemma YearFromDay_spec d :
  DayFromYear (YearFromDay d) <= d < DayFromYear (YearFromDay d + 1).
Proof.
  unfold YearFromDay.
  set (y := 1970 + 400 * d / 146097).
  assert (Hlo : DayFromYear (y - 1) <= d).
  { unfold DayFromYear, y. Z.to_euclidean_division_equations. lia. }
  assert (Hhi : d < DayFromYear (y + 2)).
  { unfold DayFromYear, y. Z.to_euclidean_division_equations. lia. }
  destruct (Z.ltb_spec d (DayFromYear y)).
  - replace (y - 1 + 1) with y by lia. lia.
  - destruct (Z.leb_spec (DayFromYear (y + 1)) d).
    + replace (y + 1 + 1) with (y + 2) by lia. lia.
    + lia.
Qed.

Lemma YearFromDay_mono d0 d1 : d0 <= d1 -> YearFromDay d0 <= YearFromDay d1.
Proof.
  intros Hle. pose proof (YearFromDay_spec d0). pose proof (YearFromDay_spec d1).
  destruct (Z.le_gt_cases (YearFromDay d0) (YearFromDay d1)) as [|Hgt]; [done|].
  pose proof (DayFromYear_mono (YearFromDay d1 + 1) (YearFromDay d0) ltac:(lia)). lia.
Qed.

Lemma YearFromDay_bounds d a b :
  DayFromYear a <= d < DayFromYear b -> a <= YearFromDay d < b.
Proof.
  intros [Hlo Hhi]. pose proof (YearFromDay_spec d) as [H1 H2]. split.
  - destruct (Z.le_gt_cases a (YearFromDay d)) as [|Hgt]; [done|].
    pose proof (DayFromYear_mono (YearFromDay d + 1) a ltac:(lia)). lia.
  - destruct (Z.lt_ge_cases (YearFromDay d) b) as [|Hge]; [done|].
    pose proof (DayFromYear_mono b (YearFromDay d) ltac:(lia)). lia.
Qed.

Lemma DayWithinYear_range t :
  0 <= DayWithinYear t < 365 + InLeapYear (YearFromTime t).
Proof.
  unfold DayWithinYear, YearFromTime.
  pose proof (YearFromDay_spec (Day t)) as [H1 H2].
  rewrite DayFromYear_succ in H2. lia.
Qed.

Ltac split_ltb :=
  repeat match goal with
         | |- context [?a <? ?b] => destruct (Z.ltb_spec a b)
         end.

Lemma month_date_range t :
  0 <= MonthFromTime t <= 11 /\ 1 <= DateFromTime t <= 31.
Proof.
  pose proof (DayWithinYear_range t) as Hd.
  pose proof (InLeapYear_range (YearFromTime t)) as Hl.
  unfold DateFromTime, MonthFromTime.
  set (d := DayWithinYear t) in *. set (l := InLeapYear (YearFromTime t)) in *.
  clearbody d l. split_ltb; lia.
Qed.

Lemma month_date_mono t0 t1 :
  YearFromTime t0 = YearFromTime t1 ->
  DayWithinYear t0 < DayWithinYear t1 ->
  MonthFromTime t0 < MonthFromTime t1
  \/ (MonthFromTime t0 = MonthFromTime t1 /\ DateFromTime t0 < DateFromTime t1).
Proof.
  intros HY Hlt.
  pose proof (DayWithinYear_range t0) as Hd0.
  pose proof (InLeapYear_range (YearFromTime t0)) as Hl.
  unfold DateFromTime, MonthFromTime. rewrite <- HY.
  set (d0 := DayWithinYear t0) in *. set (d1 := DayWithinYear t1) in *.
  set (l := InLeapYear (YearFromTime t0)) in *.
  clearbody d0 d1 l. split_ltb; lia.
Qed.

Lemma month_date_eq t0 t1 :
  Day t0 = Day t1 ->
  YearFromTime t0 = YearFromTime t1 /\ MonthFromTime t0 = MonthFromTime t1
  /\ DateFromTime t0 = DateFromTime t1.
Proof.
  intros H. unfold DateFromTime, MonthFromTime, DayWithinYear, YearFromTime.
  by rewrite H.
Qed.

Lemma time_of_day_range t :
  0 <= HourFromTime t < 24 /\ 0 <= MinFromTime t < 60
  /\ 0 <= SecFromTime t < 60 /\ 0 <= msFromTime t < 1000.
Proof.
  unfold HourFromTime, MinFromTime, SecFromTime, msFromTime.
  Z.to_euclidean_division_equations. lia.
Qed.

Lemma time_of_day_mono t0 t1 :
  t0 < t1 -> Day t0 = Day t1 ->
  HourFromTime t0 < HourFromTime t1
  \/ (HourFromTime t0 = HourFromTime t1
      /\ (MinFromTime t0 < MinFromTime t1
          \/ (MinFromTime t0 = MinFromTime t1
              /\ (SecFromTime t0 < SecFromTime t1
                  \/ (SecFromTime t0 = SecFromTime t1
                      /\ msFromTime t0 < msFromTime t1))))).
Proof.
  unfold Day, msPerDay, HourFromTime, MinFromTime, SecFromTime, msFromTime.
  intros Hlt Hday. Z.to_euclidean_division_equations. lia.
Qed.

Lemma append_nil_l s : "" +:+ s = s.
Proof. reflexivity. Qed.

Lemma toISOString_rest t :
  toISOString t = isoYear (YearFromTime t) +:+ isoRest t.
Proof.
  pose proof (month_date_range t) as [HM HD].
  pose proof (time_of_day_range t) as (Hh & Hm & Hs & Hms).
  unfold toISOString, isoRest.
  rewrite !padStart0_dig by (simpl; lia).
  rewrite !dig_app. reflexivity.
Qed.

Lemma fourDigitYear_range t : fourDigitYear t -> 0 <= YearFromTime t < 10000.
Proof.
  intros [Hlo Hhi]. apply YearFromDay_bounds.
  unfold year0, year10000, Day, msPerDay, DayFromYear in *.
  Z.to_euclidean_division_equations. lia.
Qed.

Lemma validTime_range t : validTime t -> -1000000 < YearFromTime t < 1000000.
Proof.
  intros [Hlo Hhi].
  enough (-999999 <= YearFromTime t < 1000000) by lia.
  apply YearFromDay_bounds.
  unfold Day, msPerDay, DayFromYear in *.
  Z.to_euclidean_division_equations. lia.
Qed.

Lemma isoRest_lt t0 t1 :
  t0 < t1 -> YearFromTime t0 = YearFromTime t1 -> str_lt (isoRest t0) (isoRest t1).
Proof.
  intros Hlt HY.
  pose proof (month_date_range t0) as [HM0 HD0].
  pose proof (month_date_range t1) as [HM1 HD1].
  pose proof (time_of_day_range t0) as (Hh0 & Hm0 & Hs0 & Hms0).
  pose proof (time_of_day_range t1) as (Hh1 & Hm1 & Hs1 & Hms1).
  assert (Hday : Day t0 <= Day t1).
  { unfold Day, msPerDay. Z.to_euclidean_division_equations. lia. }
  unfold isoRest. apply str_lt_cons.
  destruct (Z.eq_dec (Day t0) (Day t1)) as [Heq|Hne].
  - destruct (month_date_eq t0 t1 Heq) as (_ & -> & ->).
    apply dig_lt_tail; [simpl; lia|]. apply str_lt_cons.
    apply dig_lt_tail; [simpl; lia|]. apply str_lt_cons.
    destruct (time_of_day_mono t0 t1 Hlt Heq)
      as [H|[-> [H|[-> [H|[-> H]]]]]].
    + apply dig_lt_head; simpl; lia.
    + apply dig_lt_tail; [simpl; lia|]. apply str_lt_cons.
      apply dig_lt_head; simpl; lia.
    + apply dig_lt_tail; [simpl; lia|]. apply str_lt_cons.
      apply dig_lt_tail; [simpl; lia|]. apply str_lt_cons.
      apply dig_lt_head; simpl; lia.
    + apply dig_lt_tail; [simpl; lia|]. apply str_lt_cons.
      apply dig_lt_tail; [simpl; lia|]. apply str_lt_cons.
      apply dig_lt_tail; [simpl; lia|]. apply str_lt_cons.
      apply dig_lt_head; simpl; lia.
  - assert (Hdwy : DayWithinYear t0 < DayWithinYear t1).
    { unfold DayWithinYear. rewrite HY. lia. }
    destruct (month_date_mono t0 t1 HY Hdwy) as [H|[-> H]].
    + apply dig_lt_head; simpl; lia.
    + apply dig_lt_tail; [simpl; lia|]. apply str_lt_cons.
      apply dig_lt_head; simpl; lia.
Qed.

(** Within the years 0 to 9999 a later time value has a greater ISO
    string. *)
Lemma toISOString_lt t0 t1 :
  fourDigitYear t0 -> fourDigitYear t1 -> t0 < t1 ->
  str_lt (toISOString t0) (toISOString t1).
Proof.
  intros H0 H1 Hlt.
  pose proof (fourDigitYear_range t0 H0) as HY0.
  pose proof (fourDigitYear_range t1 H1) as HY1.
  rewrite !toISOString_rest. unfold isoYear.
  rewrite !(proj2 (andb_true_iff _ _)) by (split; apply Z.leb_le; lia).
  rewrite !padStart0_dig by (simpl; lia). rewrite !dig_app, !append_nil_l.
  assert (Hday : Day t0 <= Day t1).
  { unfold Day, msPerDay. Z.to_euclidean_division_equations. lia. }
  pose proof (YearFromDay_mono _ _ Hday) as HY. fold (YearFromTime t0) in HY.
  fold (YearFromTime t1) in HY.
  destruct (Z.eq_dec (YearFromTime t0) (YearFromTime t1)) as [Heq|Hne].
  - rewrite Heq. apply dig_lt_tail; [simpl; lia|].
    by apply isoRest_lt.
  - apply dig_lt_head; simpl; lia.
Qed.

Lemma isoRest_shape t : matches "-dd-ddTdd:dd:dd.dddZ" (isoRest t) = true.
Proof.
  unfold isoRest.
  repeat first
    [ rewrite matches_cons by reflexivity
    | match goal with
      | |- matches (String "d" (String "d" (String "d" ?p))) (dig 3 ?x ?s) = _ =>
          change (String "d" (String "d" (String "d" p))) with (ds 3 p)
      | |- matches (String "d" (String "d" ?p)) (dig 2 ?x ?s) = _ =>
          change (String "d" (String "d" p)) with (ds 2 p)
      end; rewrite matches_dig ].
  reflexivity.
Qed.

(** Every time value a [Date] can hold is rendered in the ISO format. *)
Lemma toISOString_shape t : validTime t -> is_iso8601 (toISOString t) = true.
Proof.
  intros Hv. pose proof (validTime_range t Hv) as HY.
  rewrite toISOString_rest. unfold is_iso8601, isoYear.
  destruct ((0 <=? YearFromTime t) && (YearFromTime t <=? 9999)) eqn:H4.
  - apply andb_true_iff in H4 as [?%Z.leb_le ?%Z.leb_le].
    rewrite padStart0_dig by (simpl; lia). rewrite dig_app, append_nil_l.
    change (matches "dddd-dd-ddTdd:dd:dd.dddZ")
      with (matches (ds 4 "-dd-ddTdd:dd:dd.dddZ")).
    by rewrite matches_dig, isoRest_shape.
  - rewrite padStart0_dig by (simpl; lia).
    destruct (Z.ltb_spec (YearFromTime t) 0).
    + rewrite !append_cons, !append_nil_l, dig_app, append_nil_l.
      change (matches "-dddddd-dd-ddTdd:dd:dd.dddZ")
        with (matches (String "-" (ds 6 "-dd-ddTdd:dd:dd.dddZ"))).
      rewrite matches_cons by reflexivity.
      rewrite matches_dig, isoRest_shape. apply orb_true_r.
    + rewrite !append_cons, !append_nil_l, dig_app, append_nil_l.
      change (matches "+dddddd-dd-ddTdd:dd:dd.dddZ")
        with (matches (String "+" (ds 6 "-dd-ddTdd:dd:dd.dddZ"))).
      rewrite matches_cons by reflexivity.
      rewrite matches_dig, isoRest_shape. by rewrite orb_true_r.
Qed.

End Calendar.

(** ** Identifiers *)

Section Identifiers.

Lemma pretty_N_go_digits (x : N) : forall s,
  all_digits (pretty_N_go x s) = all_digits s.
Proof.
  induction (N.lt_wf_0 x) as [x _ IH]; intros s.
  destruct (decide (x = 0%N)) as [->|Hne]; [by rewrite pretty_N_go_0|].
  rewrite pretty_N_go_step by lia.
  rewrite IH by (apply N.div_lt; lia).
  cbn [all_digits]. by rewrite is_digit_pretty_N_char.
Qed.

Lemma pretty_N_go_length (x : N) : forall s,
  (String.length s <= String.length (pretty_N_go x s))%nat.
Proof.
  induction (N.lt_wf_0 x) as [x _ IH]; intros s.
  destruct (decide (x = 0%N)) as [->|Hne]; [by rewrite pretty_N_go_0|].
  rewrite pretty_N_go_step by lia.
  etrans; [|apply IH, N.div_lt; lia]. cbn [String.length]. lia.
Qed.

Lemma pretty_positive_digits (p : positive) :
  pretty p ≠ "" /\ all_digits (pretty p) = true.
Proof.
  unfold pretty, pretty_positive, pretty, pretty_N.
  rewrite decide_False by done. split.
  - rewrite pretty_N_go_step by lia. intros Heq.
    pose proof (pretty_N_go_length (N.pos p `div` 10)
                  (String (pretty_N_char (N.pos p `mod` 10)) "")) as Hlen.
    rewrite Heq in Hlen. cbn [String.length] in Hlen. lia.
  - by rewrite pretty_N_go_digits.
Qed.

Lemma all_digits_numeral (s : string) :
  s ≠ "" -> all_digits s = true -> is_numeral s = true.
Proof.
  destruct s as [|c r]; [done|]. intros _ Hall. unfold is_numeral.
  destruct (Ascii.eqb_spec c "-") as [->|_]; [|done].
  discriminate Hall.
Qed.

(** [Date.now().toString()] is a decimal numeral. *)
Lemma toString_numeral (n : Z) : is_numeral (toString n) = true.
Proof.
  destruct n as [|p|p]; [done| |].
  - destruct (pretty_positive_digits p). by apply all_digits_numeral.
  - destruct (pretty_positive_digits p) as [Hne Hall].
    unfold toString, pretty, pretty_Z. rewrite append_cons, append_nil_l.
    unfold is_numeral. rewrite Ascii.eqb_refl, Hall.
    by rewrite bool_decide_eq_false_2.
Qed.

(** Distinct time values give distinct numerals. *)
Lemma toString_inj (a b : Z) : toString a = toString b -> a = b.
Proof. apply pretty_Z_inj. Qed.

End Identifiers.

(** ** The local store *)

Section LocalStore.

Import localStorageService.

Lemma getGames_pure (w : Browser) : getGames w = (stored w, w).
Proof. reflexivity. Qed.

Lemma stored_default (w : Browser) :
  stored w = default [] (unblockedGames (localStorage w)).
Proof. reflexivity. Qed.

Lemma addGame_eq (game : GameFields) (w : Browser) :
  addGame game w =
  (Some (created game w),
   mkBrowser (mkStorage (Some (created game w :: stored w))
                        (Some (toString (clock w (S (S (S (ticks w))))))))
             (clock w) (S (S (S (S (ticks w)))))).
Proof. reflexivity. Qed.

Lemma updateGame_missing (i : string) (u : GameUpdates) (w : Browser) :
  findIndex i (stored w) = None -> updateGame i u w = (None, w).
Proof.
  intros H. unfold updateGame, mbind, Async_bind.
  rewrite getGames_pure, H. reflexivity.
Qed.

Lemma updateGame_found (i : string) (u : GameUpdates) (w : Browser) k g :
  findIndex i (stored w) = Some (k, g) ->
  updateGame i u w =
  (Some (spread g u (Date.toISOString (clock w (ticks w)))),
   mkBrowser (mkStorage
                (Some (<[k := spread g u (Date.toISOString (clock w (ticks w)))]>
                         (stored w)))
                (Some (toString (clock w (S (ticks w))))))
             (clock w) (S (S (ticks w)))).
Proof.
  intros H. unfold updateGame, mbind, Async_bind.
  rewrite getGames_pure, H. reflexivity.
Qed.

Lemma deleteGame_eq (i : string) (w : Browser) :
  deleteGame i w =
  (true,
   mkBrowser (mkStorage (Some (filter (fun g => id g ≠ i) (stored w)))
                        (Some (toString (clock w (ticks w)))))
             (clock w) (S (ticks w))).
Proof. reflexivity. Qed.

Lemma findIndex_Some (i : string) (l : list Game) k g :
  findIndex i l = Some (k, g) ->
  l !! k = Some g /\ id g = i /\ forall j h, l !! j = Some h -> (j < k)%nat -> id h ≠ i.
Proof. unfold findIndex. intros H. by apply list_find_Some in H. Qed.

Lemma findIndex_None (i : string) (l : list Game) :
  findIndex i l = None <-> forall g, g ∈ l -> id g ≠ i.
Proof.
  unfold findIndex. rewrite list_find_None, Forall_forall. reflexivity.
Qed.

End LocalStore.

(** ** The App: which store is in use *)

Section Selection.

Import App.

(** No event of a running session writes the two cells the store
    selection rests on. *)
Lemma step_keeps_selection (y : System) (e : Event) :
  gameService (app (step y e)) = gameService (app y)
  /\ isSupabaseConnected (app (step y e)) = isSupabaseConnected (app y).
Proof.
  destruct e; simpl;
    unfold postgres_changes, storage_event, other_tab, handleEditGame,
      handleAddGame, handleUpdateGame, handleDeleteGame, handleReloadGames,
      handleDismissNotification, onChanges;
    repeat (case_match; simpl); auto.
Qed.

Lemma run_keeps_selection (es : list Event) (y : System) :
  gameService (app (run y es)) = gameService (app y)
  /\ isSupabaseConnected (app (run y es)) = isSupabaseConnected (app y).
Proof.
  revert y. induction es as [|e es IH]; intros y; simpl; [auto|].
  destruct (IH (step y e)) as [-> ->]. apply step_keeps_selection.
Qed.

End Selection.

(** ** Change reconciliation *)

Section Reconciliation.

Import App.

(** What the subscription callback does to the banner, exactly. *)
Lemma onChanges_banner (updatedGames : list Game) (s : State) :
  showNotification (onChanges updatedGames s) =
  showNotification s
  || (bool_decide (0 < length (games s))%nat
      && bool_decide (length (games s) < length updatedGames)%nat).
Proof.
  unfold onChanges.
  destruct (bool_decide (0 < length (games s))%nat
            && bool_decide (length (games s) < length updatedGames)%nat);
    simpl; [by rewrite orb_true_r | by rewrite orb_false_r].
Qed.

Lemma onChanges_games (updatedGames : list Game) (s : State) :
  games (onChanges updatedGames s) = updatedGames
  /\ lastGameCount (onChanges updatedGames s) = length updatedGames.
Proof. unfold onChanges. by case_match. Qed.

(** A pushed change reaches the callback with the collection the hosted
    backend lists at that moment. *)
Lemma postgres_changes_delivers (h : Hosted) (y : System) l :
  subscriptionEffect (app y) = Some Remote ->
  error (select_desc h) = None ->
  data (select_desc h) = Some l ->
  app (postgres_changes h y) = onChanges l (app y).
Proof.
  intros Hsub Herr Hdata. unfold postgres_changes, gameService.getGames.
  rewrite Hsub, Herr, Hdata. reflexivity.
Qed.

(** C1, as amended: when a subscription delivers a collection strictly
    larger than the displayed one and the displayed one is not empty, the
    banner is visible afterwards; the delivered collection is displayed
    and the size bookkeeping follows it. *)
Theorem onChanges_raises_banner (updatedGames : list Game) (s : State) :
  (0 < length (games s))%nat ->
  (length (games s) < length updatedGames)%nat ->
  showNotification (onChanges updatedGames s) = true
  /\ games (onChanges updatedGames s) = updatedGames
  /\ lastGameCount (onChanges updatedGames s) = length updatedGames.
Proof.
  intros Hpos Hlt. split; [|apply onChanges_games].
  rewrite onChanges_banner, !bool_decide_eq_true_2 by assumption.
  apply orb_true_r.
Qed.

(** C2: a delivered collection that is not larger than the displayed one
    replaces it at once and leaves the banner as it was. *)
Theorem onChanges_silent (updatedGames : list Game) (s : State) :
  (length updatedGames <= length (games s))%nat ->
  games (onChanges updatedGames s) = updatedGames
  /\ showNotification (onChanges updatedGames s) = showNotification s.
Proof.
  intros Hle. split; [apply onChanges_games|].
  rewrite onChanges_banner.
  rewrite (bool_decide_eq_false_2 (length (games s) < length updatedGames)%nat) by lia.
  by rewrite andb_false_r, orb_false_r.
Qed.

End Reconciliation.

(** ** Start-up and the fallback session *)

Section Fallback.

Import App.

Variables (env : Env) (createClient : string -> string -> Completion unit).


Lemma initializeSupabase_fallback (h : Hosted) (y : System) e :
  import_supabase env createClient = Throw e ->
  app (initializeSupabase env createClient h y) =
  setIsLoading false
    (setLastGameCount (length (stored (browser y)))
       (setGames (stored (browser y))
          (setIsSupabaseConnected false (setIsLoading true (app y)))))
  /\ browser (initializeSupabase env createClient h y) = browser y.
Proof.
  intros H. unfold initializeSupabase. rewrite H. split; reflexivity.
Qed.

Lemma session_fallback_selection (h : Hosted) (w : Browser) es e :
  import_supabase env createClient = Throw e ->
  gameService (app (session env createClient h w es)) = None
  /\ isSupabaseConnected (app (session env createClient h w es)) = false.
Proof.
  intros H. unfold session.
  destruct (run_keeps_selection es (initializeSupabase env createClient h (mount w)))
    as [-> ->].
  destruct (initializeSupabase_fallback h (mount w) e H) as [-> _].
  split; reflexivity.
Qed.

(** C3: in a session that fell back to the local store, whatever has
    happened since start-up, the subscription effect returns at its guard,
    so no listener exists: a storage event, and a change event of the
    hosted backend, leave the whole App as it is, and a mutation made by
    another tab followed by its storage event changes neither the
    displayed collection nor the banner. *)
Theorem fallback_never_subscribes (h h' : Hosted) (w : Browser)
    (es : list Event) (op : TabOp) (key e : string) :
  import_supabase env createClient = Throw e ->
  let y := session env createClient h w es in
  subscriptionEffect (app y) = None
  /\ storage_event key y = y
  /\ postgres_changes h' y = y
  /\ app (storage_event key (other_tab op y)) = app y.
Proof.
  intros H y.
  destruct (session_fallback_selection h w es e H) as [Hsvc Hconn].
  fold y in Hsvc, Hconn.
  assert (Hsub : subscriptionEffect (app y) = None).
  { unfold subscriptionEffect. rewrite Hsvc, Hconn. reflexivity. }
  split; [exact Hsub|]. split; [|split].
  - unfold storage_event. by rewrite Hsub.
  - unfold postgres_changes. by rewrite Hsub.
  - unfold storage_event.
    replace (app (other_tab op y)) with (app y) by (by destruct op).
    rewrite Hsub. by destruct op.
Qed.

(** With the local store selected, no handler consults the hosted
    backend. *)
Lemma step_local_ignores_hosted (h' : Hosted) (y : System) (e : Event) :
  gameService (app y) = None ->
  isSupabaseConnected (app y) = false ->
  step y (reanswer h' e) = step y e.
Proof.
  intros Hsvc Hconn. destruct e; simpl; try reflexivity.
  - unfold postgres_changes, subscriptionEffect. by rewrite Hsvc, Hconn.
  - unfold handleAddGame, getGameService. by rewrite Hsvc.
  - unfold handleUpdateGame, getGameService. by rewrite Hsvc.
  - unfold handleDeleteGame, getGameService. by rewrite Hsvc.
  - unfold handleReloadGames, getGameService. simpl. by rewrite Hsvc.
Qed.

Lemma run_local_ignores_hosted (h' : Hosted) (es : list Event) (y : System) :
  gameService (app y) = None ->
  isSupabaseConnected (app y) = false ->
  run y (map (reanswer h') es) = run y es.
Proof.
  revert y. induction es as [|e es IH]; intros y Hsvc Hconn; simpl; [done|].
  rewrite step_local_ignores_hosted by assumption.
  destruct (step_keeps_selection y e) as [H1 H2].
  apply IH; congruence.
Qed.

(** The store selected at start-up, whichever it is, stays selected. *)
Lemma selected_store_is_stable (h : Hosted) (w : Browser) (es : list Event) :
  getGameService (app (session env createClient h w es))
  = getGameService (app (session env createClient h w [])).
Proof.
  unfold session, getGameService.
  by destruct (run_keeps_selection es (initializeSupabase env createClient h (mount w)))
    as [-> _].
Qed.

(** C9: when the import of the hosted store fails, start-up leaves the
    App marked as not connected, with the local store selected and the
    collection listed from it; after any later events the App is still
    not connected and still routes to the local store, and the outcome of
    those events is the same whatever the hosted backend would have
    answered: nothing in the session reaches it again. *)
Theorem fallback_is_final (h h' : Hosted) (w : Browser) (es : list Event)
    (e : string) :
  import_supabase env createClient = Throw e ->
  let y0 := session env createClient h w [] in
  let y := session env createClient h w es in
  (isSupabaseConnected (app y0) = false
   /\ getGameService (app y0) = Local
   /\ games (app y0) = stored w
   /\ lastGameCount (app y0) = length (stored w)
   /\ isLoading (app y0) = false)
  /\ isSupabaseConnected (app y) = false
  /\ getGameService (app y) = Local
  /\ session env createClient h w (map (reanswer h') es) = y.
Proof.
  intros He y0 y.
  destruct (initializeSupabase_fallback h (mount w) e He) as [Happ _].
  destruct (session_fallback_selection h w es e He) as [Hsvc Hconn].
  fold y in Hsvc, Hconn.
  split; [|split; [|split]].
  - unfold y0, session, run. cbn [fold_left]. rewrite Happ. repeat split.
  - exact Hconn.
  - unfold getGameService. by rewrite Hsvc.
  - unfold y, session. apply run_local_ignores_hosted; by rewrite Happ.
Qed.

End Fallback.

(** ** The store interface: list, create, update, delete *)

Section Interface.

Import localStorageService.

(** C8: when the hosted backend answers a listing with an error, the
    wrapper returns the empty collection, whatever rows came with the
    answer, writes one line to the console and completes normally. *)
Theorem getGames_failure_is_empty (h : Hosted) (e : string) :
  error (select_desc h) = Some e ->
  gameService.getGames h = (Normal [], ["Error fetching games: " +:+ e]).
Proof. intros H. unfold gameService.getGames. by rewrite H. Qed.

(** The wrapper never completes a listing with a fault. *)
Lemma getGames_never_throws (h : Hosted) :
  exists l, fst (gameService.getGames h) = Normal l.
Proof. unfold gameService.getGames. case_match; eauto. Qed.

(** C6: an update through either store. On the local store, a record
    with the id is found or not. If it is, the result is the merged
    record: each of title, description, category, color and url is the
    supplied value when the update has one and the value of the found
    record otherwise, id and [created_at] are those of the found record,
    and [updated_at] is the ISO string of the clock reading taken by the
    update; the stored collection holds the merged record at the index of
    the found one. If none is found, the result is null and the browser
    is left exactly as it was. On the hosted store the request carries the
    supplied fields and that same stamp; the result is null, with a
    console line, when the backend answers with an error, and the row it
    answers with otherwise; the local storage is not touched. *)
Theorem updateGame_merges_or_null (v : Service) (i : string)
    (updates : GameUpdates) (h : Hosted) (w : Browser) :
  let stamp := Date.toISOString (clock w (ticks w)) in
  let '((c, lines), w') := App.updateGame v i updates h w in
  match v with
  | Local =>
      lines = [] /\
      match findIndex i (stored w) with
      | Some (k, g) =>
          let merged :=
            {| id := id g;
               title := match u_title updates with
                        | Some x => x
                        | None => title g
                        end;
               description := match u_description updates with
                              | Some x => x
                              | None => description g
                              end;
               category := match u_category updates with
                           | Some x => x
                           | None => category g
                           end;
               color := match u_color updates with
                        | Some x => x
                        | None => color g
                        end;
               url := match u_url updates with
                      | Some x => x
                      | None => url g
                      end;
               created_at := created_at g;
               updated_at := stamp |} in
          stored w !! k = Some g /\ id g = i
          /\ c = Normal (Some merged)
          /\ stored w' = <[k := merged]> (stored w)
      | None =>
          (forall g, g ∈ stored w -> id g ≠ i)
          /\ c = Normal None /\ w' = w
      end
  | Remote =>
      localStorage w' = localStorage w /\
      match error (update_single h i updates stamp) with
      | Some e => c = Normal None /\ lines = ["Error updating game: " +:+ e]
      | None => c = Normal (data (update_single h i updates stamp)) /\ lines = []
      end
  end.
Proof.
  destruct v; simpl.
  - unfold gameService.updateGame, mbind, Async_bind; simpl.
    destruct (error _); simpl; auto.
  - unfold mbind at 1, Async_bind at 1.
    destruct (findIndex i (stored w)) as [[k g]|] eqn:Hfind.
    + rewrite (updateGame_found i updates w k g Hfind). simpl.
      destruct (findIndex_Some _ _ _ _ Hfind) as (Hk & Hid & _).
      split; [reflexivity|]. split; [exact Hk|]. split; [exact Hid|].
      split; reflexivity.
    + rewrite (updateGame_missing i updates w Hfind). simpl.
      repeat split; auto. by apply findIndex_None.
Qed.

(** The merge keeps the identity and the creation stamp, and takes a
    field from the update exactly when the update has it. *)
Lemma spread_frame (g : Game) (u : GameUpdates) (stamp : string) :
  id (spread g u stamp) = id g
  /\ created_at (spread g u stamp) = created_at g
  /\ updated_at (spread g u stamp) = stamp
  /\ title (spread g u stamp) = default (title g) (u_title u)
  /\ description (spread g u stamp) = default (description g) (u_description u)
  /\ category (spread g u stamp) = default (category g) (u_category u)
  /\ color (spread g u stamp) = default (color g) (u_color u)
  /\ url (spread g u stamp) = default (url g) (u_url u).
Proof. repeat split. Qed.

End Interface.

(** ** Delete on the local store *)

Section Deletion.

Import localStorageService.

Lemma filter_id_split (i : string) (l : list Game) :
  (length (filter (fun g => id g ≠ i) l) + length (filter (fun g => id g = i) l)
   = length l)%nat.
Proof.
  induction l as [|g l IH]; [done|].
  rewrite !filter_cons. destruct (decide (id g = i)) as [Heq|Hne].
  - rewrite decide_False by tauto. simpl. lia.
  - rewrite decide_True by assumption. simpl. lia.
Qed.

Lemma filter_id_absent (i : string) (l : list Game) :
  i ∉ map id l -> filter (fun g => id g = i) l = [].
Proof.
  induction l as [|g l IH]; [done|]. simpl. intros Hnotin.
  rewrite filter_cons, decide_False.
  - apply IH. intros Hin. apply Hnotin. by right.
  - intros Heq. apply Hnotin. rewrite Heq. left.
Qed.

Lemma filter_id_distinct (i : string) (l : list Game) :
  NoDup (map id l) -> i ∈ map id l ->
  length (filter (fun g => id g = i) l) = 1%nat.
Proof.
  induction l as [|g l IH]; simpl; intros Hnd Hin.
  - by apply elem_of_nil in Hin.
  - apply NoDup_cons in Hnd as [Hnotin Hnd].
    rewrite filter_cons. destruct (decide (id g = i)) as [Heq|Hne].
    + subst i. by rewrite filter_id_absent.
    + apply IH; [assumption|].
      apply elem_of_cons in Hin as [Heq|Hin]; [congruence | assumption].
Qed.

(** What a local delete does for any id: it reports success, no stored
    record carries the id afterwards, records with another id stay in
    place and in order, and the size drops by the number of records that
    carried the id. *)
Lemma deleteGame_spec (i : string) (w : Browser) :
  fst (deleteGame i w) = true
  /\ stored (snd (deleteGame i w)) = filter (fun g => id g ≠ i) (stored w)
  /\ (forall g, g ∈ stored (snd (deleteGame i w)) -> id g ≠ i)
  /\ (length (stored (snd (deleteGame i w)))
      + length (filter (fun g => id g = i) (stored w))
      = length (stored w))%nat.
Proof.
  assert (Hst : stored (snd (deleteGame i w))
                = filter (fun g => id g ≠ i) (stored w)) by reflexivity.
  split; [done|]. split; [exact Hst|]. rewrite Hst. split.
  - intros g Hg. by apply list_elem_of_filter in Hg as [? _].
  - apply filter_id_split.
Qed.

(** With pairwise distinct ids, deleting an id that is present makes the
    collection exactly one shorter. *)
Lemma deleteGame_distinct_ids (i : string) (w : Browser) :
  NoDup (map id (stored w)) ->
  i ∈ map id (stored w) ->
  length (stored w) = S (length (stored (snd (deleteGame i w)))).
Proof.
  intros Hnd Hin. destruct (deleteGame_spec i w) as (_ & _ & _ & Hlen).
  rewrite (filter_id_distinct i (stored w) Hnd Hin) in Hlen. lia.
Qed.

End Deletion.

(** ** Create and update *)

Section CreateUpdate.

Import localStorageService.

(** C4: a create through either store. On the local store it always
    returns a record: the record carries the supplied fields, a numeral id
    and two timestamps in the ISO format, all three read from the clock,
    and a listing made afterwards is the earlier listing with exactly that
    record put in front. On the hosted store the request carries the
    supplied fields alone; the result is null, with a console line, when
    the backend answers with an error and the row it answers with
    otherwise, and the local storage is not touched. The clock is assumed
    to yield time values a [Date] can hold. *)
Theorem addGame_creates (v : Service) (game : GameFields) (h : Hosted)
    (w : Browser) :
  (forall k, Date.validTime (clock w k)) ->
  let '((c, lines), w') := App.addGame v game h w in
  match v with
  | Local =>
      exists g,
        c = Normal (Some g) /\ lines = []
        /\ fields_of g = game
        /\ id g = toString (clock w (ticks w))
        /\ is_numeral (id g) = true
        /\ created_at g = Date.toISOString (clock w (S (ticks w)))
        /\ is_iso8601 (created_at g) = true
        /\ updated_at g = Date.toISOString (clock w (S (S (ticks w))))
        /\ is_iso8601 (updated_at g) = true
        /\ stored w' = g :: stored w
  | Remote =>
      localStorage w' = localStorage w
      /\ match error (insert_single h game) with
         | Some e => c = Normal None /\ lines = ["Error adding game: " +:+ e]
         | None => c = Normal (data (insert_single h game)) /\ lines = []
         end
  end.
Proof.
  intros Hclock. destruct v.
  - simpl. unfold gameService.addGame. destruct (error _); simpl; auto.
  - unfold App.addGame, mbind, Async_bind. rewrite addGame_eq. simpl.
    exists (created game w). repeat split.
    + by destruct game.
    + apply toString_numeral.
    + apply toISOString_shape, Hclock.
    + apply toISOString_shape, Hclock.
Qed.

(** An update never changes an id, and changes no record but the one it
    finds. *)
Lemma updateGame_keeps_ids (i : string) (u : GameUpdates) (w : Browser) :
  map id (stored (snd (updateGame i u w))) = map id (stored w).
Proof.
  destruct (findIndex i (stored w)) as [[k g]|] eqn:Hfind.
  - rewrite (updateGame_found i u w k g Hfind). unfold stored at 1. simpl.
    destruct (findIndex_Some _ _ _ _ Hfind) as (Hk & _ & _).
    rewrite list_fmap_insert. apply list_insert_id.
    rewrite list_lookup_fmap, Hk. reflexivity.
  - by rewrite (updateGame_missing i u w Hfind).
Qed.

(** C5, as amended: on the local store, an update of the title of a
    stored record returns, and stores at the same index, a record with the
    new title, with the id, description, category, color, url and creation
    stamp it had, and with [updated_at] set to the ISO string of the clock
    reading taken by the update; the other records stay as they were. That
    stamp is strictly greater than the earlier one when the earlier one was
    taken at a strictly earlier clock reading (both within the years 0 to
    9999), and equal to it when the clock reads the same value. On the
    hosted store the request sets the title and that same stamp and
    nothing else, and the result is the row the backend answers with, or
    null on an error. *)
Theorem updateGame_title (i x : string) (w : Browser) (k : nat) (g : Game)
    (h : Hosted) :
  findIndex i (stored w) = Some (k, g) ->
  let now := clock w (ticks w) in
  (exists g' w',
     updateGame i (only_title x) w = (Some g', w')
     /\ stored w' !! k = Some g'
     /\ (forall j, j ≠ k -> stored w' !! j = stored w !! j)
     /\ length (stored w') = length (stored w)
     /\ title g' = x
     /\ id g' = id g /\ description g' = description g
     /\ category g' = category g /\ color g' = color g /\ url g' = url g
     /\ created_at g' = created_at g
     /\ updated_at g' = Date.toISOString now
     /\ (forall t0, updated_at g = Date.toISOString t0 ->
           Date.fourDigitYear t0 -> Date.fourDigitYear now -> t0 < now ->
           str_lt (updated_at g) (updated_at g'))
     /\ (updated_at g = Date.toISOString now -> updated_at g' = updated_at g))
  /\ fst (gameService.updateGame i (only_title x) h w) =
     let r := update_single h i (only_title x) (Date.toISOString now) in
     match error r with
     | Some e => (Normal None, ["Error updating game: " +:+ e])
     | None => (Normal (data r), [])
     end.
Proof.
  intros Hfind now. split.
  - destruct (findIndex_Some _ _ _ _ Hfind) as (Hk & _ & _).
    eexists _, _. split; [apply (updateGame_found i _ w k g Hfind)|].
    change (stored (mkBrowser (mkStorage (Some ?l) ?u) ?c ?n)) with l.
    split; [apply list_lookup_insert_eq; by eapply lookup_lt_Some|].
    split; [intros j Hj; by apply list_lookup_insert_ne|].
    split; [apply length_insert|].
    repeat split.
    + intros t0 -> H0 H1 Hlt. by apply toISOString_lt.
    + intros ->. reflexivity.
  - unfold gameService.updateGame, mbind, Async_bind. simpl.
    fold now. by destruct (error _).
Qed.

End CreateUpdate.

(** ** Identity of records in the local store *)

Section Identity.

Import localStorageService.

(** A create whose clock reading is not yet used as an id keeps the ids
    pairwise distinct. *)
Lemma addGame_fresh_id (game : GameFields) (w : Browser) :
  NoDup (map id (stored w)) ->
  toString (clock w (ticks w)) ∉ map id (stored w) ->
  NoDup (map id (stored (snd (addGame game w)))).
Proof.
  intros Hnd Hfresh. rewrite addGame_eq.
  change (stored _) with (created game w :: stored w).
  simpl. by apply NoDup_cons.
Qed.

(** A delete only removes records: the ids that remain were there. *)
Lemma deleteGame_keeps_ids (i : string) (w : Browser) :
  map id (stored (snd (deleteGame i w))) ⊆ map id (stored w).
Proof.
  destruct (deleteGame_spec i w) as (_ & -> & _).
  intros x Hx. apply list_elem_of_fmap in Hx as (g & -> & Hg).
  apply list_elem_of_filter in Hg as [_ Hg].
  apply list_elem_of_fmap. eauto.
Qed.

(** C10, at the failing input: two creates made within one millisecond
    leave two different records with one and the same id in the local
    store. *)
Theorem addGame_twice_same_id :
  let w2 := snd (addGame pong (snd (addGame maze (still 1793560000123)))) in
  exists g1 g2,
    stored w2 = [g2; g1] /\ fields_of g1 = maze /\ fields_of g2 = pong
    /\ g1 ≠ g2 /\ id g1 = "1793560000123" /\ id g2 = "1793560000123"
    /\ ~ NoDup (map id (stored w2)).
Proof.
  eexists _, _. split; [vm_compute; reflexivity|].
  split; [reflexivity|]. split; [reflexivity|].
  split; [discriminate|]. split; [reflexivity|]. split; [reflexivity|].
  vm_compute. intros Hnd. apply NoDup_cons in Hnd as [Hnotin _].
  apply Hnotin. left.
Qed.

(** C7, at the failing input: with the two records of one id that two
    creates within one millisecond leave behind, a delete of that id
    reports success and removes both, so the collection gets two
    shorter. *)
Theorem deleteGame_removes_both :
  let w2 := snd (addGame pong (snd (addGame maze (still 1793560000123)))) in
  "1793560000123" ∈ map id (stored w2)
  /\ length (stored w2) = 2%nat
  /\ fst (deleteGame "1793560000123" w2) = true
  /\ length (stored (snd (deleteGame "1793560000123" w2))) = 0%nat.
Proof.
  split; [vm_compute; left|]. repeat split.
Qed.

(** C5, the failing instance: a record updated within the millisecond of
    its creation gets the [updated_at] it already had. *)
Lemma updateGame_same_millisecond :
  let w1 := snd (addGame maze (still 1793560000123)) in
  let r := updateGame "1793560000123" (only_title "X") w1 in
  exists g g',
    stored w1 = [g] /\ id g = "1793560000123"
    /\ fst r = Some g' /\ stored (snd r) = [g'] /\ title g' = "X"
    /\ updated_at g = "2026-11-01T19:06:40.123Z"
    /\ updated_at g' = "2026-11-01T19:06:40.123Z"
    /\ ~ str_lt (updated_at g) (updated_at g').
Proof.
  eexists _, _. split; [vm_compute; reflexivity|].
  split; [reflexivity|]. split; [vm_compute; reflexivity|].
  split; [reflexivity|]. split; [reflexivity|].
  split; [reflexivity|]. split; [reflexivity|].
  vm_compute. discriminate.
Qed.

End Identity.

(** ** The banner after a first load of an empty collection *)

Section FirstGame.

Import App.

(** C1, the failing instance: the App has loaded an empty collection from
    the hosted store and holds a subscription; another client creates a
    game and the change event delivers a collection of one; the banner
    stays hidden. *)
Lemma first_game_raises_no_banner :
  let y := session configured client_ok (listing []) (still 1793560000123) [] in
  let g := row "7f3c" maze "2026-11-01T19:06:40.123+00:00" in
  let y' := step y (PostgresChanges (listing [g])) in
  isLoading (app y) = false
  /\ subscriptionEffect (app y) = Some Remote
  /\ games (app y) = [] /\ showNotification (app y) = false
  /\ games (app y') = [g]
  /\ (length (games (app y)) < length (games (app y')))%nat
  /\ showNotification (app y') = false.
Proof. vm_compute. repeat split. lia. Qed.

End FirstGame.

(** ** Concrete instances *)

Section Instances.

Import App.

(** The banner rises when a second game arrives next to a displayed one. *)
Lemma onChanges_raises_banner_example :
  (0 < length (games (showing [g_maze])))%nat
  /\ (length (games (showing [g_maze])) < length [g_pong; g_maze])%nat
  /\ showNotification (onChanges [g_pong; g_maze] (showing [g_maze])) = true
  /\ games (onChanges [g_pong; g_maze] (showing [g_maze])) = [g_pong; g_maze]
  /\ lastGameCount (onChanges [g_pong; g_maze] (showing [g_maze])) = 2%nat.
Proof.
  split; [simpl; lia|]. split; [simpl; lia|].
  apply (onChanges_raises_banner [g_pong; g_maze] (showing [g_maze])); simpl; lia.
Defined.

(** A deletion seen through the subscription is applied silently. *)
Lemma onChanges_silent_example :
  (length [g_maze] <= length (games (showing [g_pong; g_maze])))%nat
  /\ games (onChanges [g_maze] (showing [g_pong; g_maze])) = [g_maze]
  /\ showNotification (onChanges [g_maze] (showing [g_pong; g_maze])) = false.
Proof.
  split; [simpl; lia|].
  apply (onChanges_silent [g_maze] (showing [g_pong; g_maze])); simpl; lia.
Defined.

(** Without the two variables the session runs on the local store and
    ignores the storage event of another tab's create. *)
Lemma fallback_never_subscribes_example :
  import_supabase unconfigured client_ok
  = Throw "Missing Supabase environment variables"
  /\ let y := session unconfigured client_ok unreachable (still 1793560000123)
                      busy_session in
     subscriptionEffect (app y) = None
     /\ storage_event "gameUpdate" y = y
     /\ postgres_changes (listing [g_maze]) y = y
     /\ app (storage_event "gameUpdate" (other_tab (TabAdd pong) y)) = app y.
Proof.
  split; [reflexivity|].
  apply (fallback_never_subscribes unconfigured client_ok unreachable
           (listing [g_maze]) (still 1793560000123) busy_session (TabAdd pong)
           "gameUpdate" "Missing Supabase environment variables").
  reflexivity.
Defined.

Lemma fallback_is_final_example :
  import_supabase unconfigured client_ok
  = Throw "Missing Supabase environment variables"
  /\ let y := session unconfigured client_ok unreachable (still 1793560000123)
                      busy_session in
     isSupabaseConnected (app y) = false
     /\ getGameService (app y) = Local
     /\ session unconfigured client_ok unreachable (still 1793560000123)
          (map (reanswer (listing [g_maze; g_pong])) busy_session) = y.
Proof.
  split; [reflexivity|].
  apply (fallback_is_final unconfigured client_ok unreachable
           (listing [g_maze; g_pong]) (still 1793560000123) busy_session
           "Missing Supabase environment variables").
  reflexivity.
Defined.

Lemma addGame_creates_example :
  (forall k, Date.validTime (clock (still 1793560000123) k))
  /\ exists g,
       fst (fst (addGame Local maze unreachable (still 1793560000123)))
       = Normal (Some g)
       /\ fields_of g = maze
       /\ is_numeral (id g) = true
       /\ is_iso8601 (created_at g) = true
       /\ is_iso8601 (updated_at g) = true
       /\ stored (snd (addGame Local maze unreachable (still 1793560000123))) = [g].
Proof.
  assert (Hclock : forall k, Date.validTime (clock (still 1793560000123) k)).
  { intros k. unfold Date.validTime. simpl. lia. }
  split; [exact Hclock|].
  pose proof (addGame_creates Local maze unreachable (still 1793560000123) Hclock)
    as Hspec.
  destruct (addGame Local maze unreachable (still 1793560000123))
    as [[c lines] w'].
  destruct Hspec as (g & Hc & _ & Hf & _ & Hid & _ & Hca & _ & Hua & Hst).
  exists g. simpl. repeat split; assumption.
Defined.

Lemma updateGame_title_example :
  let w1 := snd (localStorageService.addGame maze (still 1793560000123)) in
  localStorageService.findIndex "1793560000123" (stored w1)
  = Some (0%nat, created maze (still 1793560000123))
  /\ exists g' w',
       localStorageService.updateGame "1793560000123" (only_title "X") w1
       = (Some g', w')
       /\ stored w' !! 0%nat = Some g'
       /\ title g' = "X"
       /\ url g' = "https://x/maze".
Proof.
  intros w1.
  assert (Hfind : localStorageService.findIndex "1793560000123" (stored w1)
                  = Some (0%nat, created maze (still 1793560000123)))
    by reflexivity.
  split; [exact Hfind|].
  destruct (updateGame_title "1793560000123" "X" w1 0
              (created maze (still 1793560000123)) unreachable Hfind)
    as [(g' & w' & Hupd & Hk & _ & _ & Ht & _ & _ & _ & _ & Hurl & _) _].
  exists g', w'. repeat split; assumption.
Defined.

Lemma getGames_failure_is_empty_example :
  error (select_desc unreachable) = Some "Failed to fetch"
  /\ gameService.getGames unreachable
     = (Normal [], ["Error fetching games: Failed to fetch"]).
Proof.
  split; [reflexivity|].
  apply (getGames_failure_is_empty unreachable "Failed to fetch"). reflexivity.
Defined.

End Instances.

(** * Further properties *)

(** ** The local store: how its operations compose *)

Section LocalCompose.

Import localStorageService.

Lemma filter_id_none (i : string) (l : list Game) :
  i ∉ map id l -> filter (fun g => id g ≠ i) l = l.
Proof.
  induction l as [|g l IH]; [done|]. simpl. intros Hnotin.
  rewrite filter_cons, decide_True.
  - f_equal. apply IH. intros Hin. apply Hnotin. by right.
  - intros Heq. apply Hnotin. rewrite Heq. left.
Qed.

Lemma stored_deleteGame (i : string) (w : Browser) :
  stored (snd (deleteGame i w)) = filter (fun g => id g ≠ i) (stored w).
Proof. reflexivity. Qed.

Lemma stored_addGame (game : GameFields) (w : Browser) :
  stored (snd (addGame game w)) = created game w :: stored w.
Proof. reflexivity. Qed.

(** A create followed by a delete of the id it returned gives back the
    collection there was, provided no stored record carried that id. *)
Theorem addGame_then_deleteGame (game : GameFields) (w : Browser) :
  toString (clock w (ticks w)) ∉ map id (stored w) ->
  exists g,
    fst (addGame game w) = Some g
    /\ id g = toString (clock w (ticks w))
    /\ stored (snd (deleteGame (id g) (snd (addGame game w)))) = stored w.
Proof.
  intros Hfresh. exists (created game w). split; [done|]. split; [done|].
  rewrite stored_deleteGame, stored_addGame, filter_cons.
  rewrite decide_False by (intros Hne; by apply Hne).
  by apply filter_id_none.
Qed.

(** Deleting is idempotent, two deletes commute, and a delete of an id
    that no record carries leaves the collection as it was. *)
Theorem deleteGame_composes (i j : string) (w : Browser) :
  stored (snd (deleteGame i (snd (deleteGame i w)))) = stored (snd (deleteGame i w))
  /\ stored (snd (deleteGame i (snd (deleteGame j w))))
     = stored (snd (deleteGame j (snd (deleteGame i w))))
  /\ (i ∉ map id (stored w) -> stored (snd (deleteGame i w)) = stored w).
Proof.
  rewrite !stored_deleteGame. split; [|split].
  - apply filter_id_none. intros Hin.
    apply list_elem_of_fmap in Hin as (g & Hid & Hg).
    apply list_elem_of_filter in Hg as [Hne _]. by apply Hne.
  - induction (stored w) as [|g l IH]; [done|].
    rewrite !filter_cons.
    destruct (decide (id g ≠ i)), (decide (id g ≠ j));
      rewrite ?filter_cons, ?decide_True, ?decide_False by (try tauto);
      by rewrite ?IH.
  - apply filter_id_none.
Qed.

(** A record can be updated by the id its create returned, whatever else
    is stored: the update finds that record, at the front, and returns,
    and stores in its place, the record whose title, description,
    category, color and url are the supplied values where the update has
    them and the created ones elsewhere, with the id and [created_at] of
    the create and the [updated_at] of the update's own clock reading. *)
Theorem addGame_then_updateGame (game : GameFields) (u : GameUpdates)
    (w : Browser) :
  let w1 := snd (addGame game w) in
  let i := toString (clock w (ticks w)) in
  let g' :=
    {| id := i;
       title := match u_title u with Some x => x | None => f_title game end;
       description := match u_description u with
                      | Some x => x
                      | None => f_description game
                      end;
       category := match u_category u with
                   | Some x => x
                   | None => f_category game
                   end;
       color := match u_color u with Some x => x | None => f_color game end;
       url := match u_url u with Some x => x | None => f_url game end;
       created_at := Date.toISOString (clock w (S (ticks w)));
       updated_at := Date.toISOString (clock w (4 + ticks w)) |} in
  (exists g, fst (addGame game w) = Some g /\ id g = i)
  /\ fst (updateGame i u w1) = Some g'
  /\ stored (snd (updateGame i u w1)) = g' :: stored w.
Proof.
  intros w1 i g'. split; [by exists (created game w)|].
  assert (Hfind : findIndex i (stored w1) = Some (0%nat, created game w)).
  { unfold findIndex, w1. rewrite stored_addGame. simpl.
    by rewrite decide_True. }
  rewrite (updateGame_found _ u w1 0 _ Hfind). split; reflexivity.
Qed.

Lemma updateGame_keeps_stamps (i : string) (u : GameUpdates) (w : Browser) :
  map created_at (stored (snd (updateGame i u w))) = map created_at (stored w).
Proof.
  destruct (findIndex i (stored w)) as [[k g]|] eqn:Hfind.
  - rewrite (updateGame_found i u w k g Hfind). cbn [snd].
    change (stored (mkBrowser (mkStorage (Some ?l) ?s) ?c ?n)) with l.
    destruct (findIndex_Some _ _ _ _ Hfind) as (Hk & _ & _).
    rewrite list_fmap_insert. apply list_insert_id.
    by rewrite list_lookup_fmap, Hk.
  - by rewrite (updateGame_missing i u w Hfind).
Qed.

(** An update changes neither the ids, nor the creation stamps, nor the
    number or order of the stored records. *)
Theorem updateGame_keeps_identity (i : string) (u : GameUpdates) (w : Browser) :
  map id (stored (snd (updateGame i u w))) = map id (stored w)
  /\ map created_at (stored (snd (updateGame i u w))) = map created_at (stored w)
  /\ length (stored (snd (updateGame i u w))) = length (stored w).
Proof.
  destruct (findIndex i (stored w)) as [[k g]|] eqn:Hfind.
  - rewrite (updateGame_found i u w k g Hfind). cbn [snd].
    change (stored (mkBrowser (mkStorage (Some ?l) ?s) ?c ?n)) with l.
    destruct (findIndex_Some _ _ _ _ Hfind) as (Hk & _ & _).
    rewrite !list_fmap_insert, length_insert.
    split; [|split; [|done]];
      apply list_insert_id; by rewrite list_lookup_fmap, Hk.
  - by rewrite (updateGame_missing i u w Hfind).
Qed.

End LocalCompose.

(** ** The local store: what a sequence of mutations keeps *)

Section LocalInvariants.

Import localStorageService.

Lemma local_op_clock (op : App.TabOp) (w : Browser) :
  clock (local_op op w) = clock w /\ (ticks w <= ticks (local_op op w))%nat.
Proof.
  destruct op as [game|i u|i]; cbn [local_op].
  - rewrite addGame_eq. simpl. split; [done|lia].
  - destruct (findIndex i (stored w)) as [[k g]|] eqn:Hfind.
    + rewrite (updateGame_found i u w k g Hfind). simpl. split; [done|lia].
    + rewrite (updateGame_missing i u w Hfind). simpl. split; [done|lia].
  - rewrite deleteGame_eq. simpl. split; [done|lia].
Qed.

Lemma map_id_filter (i : string) (l : list Game) :
  map id (filter (fun g => id g ≠ i) l) = filter (fun x => x ≠ i) (map id l).
Proof.
  induction l as [|g l IH]; [done|]. simpl. rewrite !filter_cons.
  destruct (decide (id g ≠ i)); simpl; by rewrite IH.
Qed.

(** The ids after one mutation: a create puts the numeral of its first
    clock reading in front, an update changes nothing, a delete removes
    the id. *)
Lemma local_op_ids (op : App.TabOp) (w : Browser) :
  map id (stored (local_op op w)) =
  match op with
  | App.TabAdd _ => toString (clock w (ticks w)) :: map id (stored w)
  | App.TabUpdate _ _ => map id (stored w)
  | App.TabDelete i => filter (fun x => x ≠ i) (map id (stored w))
  end.
Proof.
  destruct op as [game|i u|i]; cbn [local_op].
  - by rewrite stored_addGame.
  - apply updateGame_keeps_ids.
  - by rewrite stored_deleteGame, map_id_filter.
Qed.

Lemma advancing_fresh (w : Browser) :
  advancing w -> stamped_ids w ->
  toString (clock w (ticks w)) ∉ map id (stored w).
Proof.
  intros Hadv Hst Hin. destruct (Hst _ Hin) as (k & Hk & Heq).
  apply toString_inj in Heq. specialize (Hadv k (ticks w) Hk). lia.
Qed.

Lemma local_op_unique (op : App.TabOp) (w : Browser) :
  advancing w -> stamped_ids w -> NoDup (map id (stored w)) ->
  advancing (local_op op w) /\ stamped_ids (local_op op w)
  /\ NoDup (map id (stored (local_op op w))).
Proof.
  intros Hadv Hst Hnd.
  destruct (local_op_clock op w) as [Hclock Hticks].
  split; [|split].
  - unfold advancing. rewrite Hclock. exact Hadv.
  - unfold stamped_ids. rewrite Hclock, local_op_ids. intros i Hi.
    assert (Hcase : i ∈ map id (stored w)
                    \/ (i = toString (clock w (ticks w))
                        /\ (ticks w < ticks (local_op op w))%nat)).
    { destruct op as [game|j u|j].
      - apply elem_of_cons in Hi as [->|Hi]; [right|by left].
        split; [done|]. cbn [local_op]. rewrite addGame_eq. simpl. lia.
      - by left.
      - apply list_elem_of_filter in Hi as [_ Hi]. by left. }
    destruct Hcase as [Hold|[-> Hlt]].
    + destruct (Hst i Hold) as (k & Hk & ->). exists k. split; [lia|done].
    + exists (ticks w). split; [lia|done].
  - rewrite local_op_ids. destruct op as [game|j u|j].
    + apply NoDup_cons. split; [by apply advancing_fresh|done].
    + done.
    + by apply NoDup_filter.
Qed.

(** With a clock that shows a later time at every reading, the ids of the
    local store stay pairwise distinct through any sequence of creates,
    updates and deletes, when they were distinct numerals of earlier
    readings to begin with (as they are in an empty store). *)
Theorem local_ops_unique_ids (ops : list App.TabOp) (w : Browser) :
  advancing w -> stamped_ids w -> NoDup (map id (stored w)) ->
  NoDup (map id (stored (local_ops ops w))).
Proof.
  revert w. induction ops as [|op ops IH]; intros w Hadv Hst Hnd; [done|].
  destruct (local_op_unique op w Hadv Hst Hnd) as (Hadv' & Hst' & Hnd').
  by apply (IH (local_op op w)).
Qed.

End LocalInvariants.

Section LocalOrder.

Import localStorageService.

Lemma filter_readings (f : nat -> string) (P : Game -> Prop)
    `{forall g, Decision (P g)} (l : list Game) : forall ks,
  map created_at l = map f ks -> descending ks ->
  exists ks', map created_at (filter P l) = map f ks'
              /\ descending ks' /\ forall k, k ∈ ks' -> k ∈ ks.
Proof.
  induction l as [|g l IH]; intros ks Hmap Hdesc.
  - exists []. repeat split. intros k Hk. by apply elem_of_nil in Hk.
  - destruct ks as [|k ks]; [discriminate|].
    simpl in Hmap. injection Hmap as Hg Hl. destruct Hdesc as [Hk Hdesc].
    destruct (IH ks Hl Hdesc) as (ks' & Hmap' & Hdesc' & Hsub).
    rewrite filter_cons. destruct (decide (P g)).
    + exists (k :: ks'). simpl. rewrite Hg, Hmap'. split; [done|]. split.
      * split; [|done]. intros j Hj. apply Hk, Hsub, Hj.
      * intros j Hj. apply elem_of_cons in Hj as [->|Hj]; [left|right; auto].
    + exists ks'. split; [done|]. split; [done|].
      intros j Hj. right. auto.
Qed.

Lemma local_op_order (op : App.TabOp) (w : Browser) (ks : list nat) :
  created_in_order w ks -> exists ks', created_in_order (local_op op w) ks'.
Proof.
  intros (Hmap & Hdesc & Hbound).
  destruct (local_op_clock op w) as [Hclock Hticks].
  unfold created_in_order, created_at_readings in *. rewrite Hclock.
  destruct op as [game|i u|i]; cbn [local_op].
  - exists (S (ticks w) :: ks). rewrite stored_addGame. simpl. rewrite Hmap.
    split; [done|]. split.
    + split; [|done]. intros j Hj. specialize (Hbound j Hj). lia.
    + intros j Hj. rewrite ?addGame_eq. simpl.
      apply elem_of_cons in Hj as [->|Hj]; [lia|]. specialize (Hbound j Hj). lia.
  - exists ks. rewrite updateGame_keeps_stamps.
    split; [done|]. split; [done|].
    intros j Hj. specialize (Hbound j Hj). cbn [local_op] in Hticks. lia.
  - rewrite stored_deleteGame.
    destruct (filter_readings (fun k => Date.toISOString (clock w k))
                (fun g => id g ≠ i) (stored w) ks Hmap Hdesc)
      as (ks' & Hmap' & Hdesc' & Hsub).
    exists ks'. split; [done|]. split; [done|].
    intros j Hj. specialize (Hbound j (Hsub j Hj)). cbn [local_op] in Hticks. lia.
Qed.

Lemma local_ops_order (ops : list App.TabOp) : forall (w : Browser) (ks : list nat),
  created_in_order w ks -> exists ks', created_in_order (local_ops ops w) ks'.
Proof.
  induction ops as [|op ops IH]; intros w ks Hinv; [by exists ks|].
  destruct (local_op_order op w ks Hinv) as (ks1 & Hinv1).
  apply (IH (local_op op w) ks1 Hinv1).
Qed.

Lemma local_ops_clock (ops : list App.TabOp) : forall w : Browser,
  clock (local_ops ops w) = clock w.
Proof.
  induction ops as [|op ops IH]; intros w; [done|].
  cbn [local_ops fold_left]. fold (local_ops ops (local_op op w)).
  rewrite IH. apply local_op_clock.
Qed.

Lemma local_ops_ticks (ops : list App.TabOp) : forall w : Browser,
  (ticks w <= ticks (local_ops ops w))%nat.
Proof.
  induction ops as [|op ops IH]; intros w; [done|].
  cbn [local_ops fold_left]. fold (local_ops ops (local_op op w)).
  etrans; [|apply IH]. apply local_op_clock.
Qed.

Lemma descending_newest_first (c : nat -> Z) (ks : list nat) :
  (forall j k, (j < k)%nat -> c j < c k) ->
  (forall k, k ∈ ks -> Date.fourDigitYear (c k)) ->
  descending ks ->
  newest_first (map (fun k => Date.toISOString (c k)) ks).
Proof.
  intros Hadv. induction ks as [|k ks IH]; [done|].
  intros Hrange [Hk Hdesc]. simpl. split.
  - intros r Hr. apply list_elem_of_fmap in Hr as (j & -> & Hj).
    apply toISOString_lt; [apply Hrange; by right|apply Hrange; left|auto].
  - apply IH; [|done]. intros j Hj. apply Hrange. by right.
Qed.

(** With a clock that shows a later time at every reading, within the
    years 0 to 9999 for the readings made, a local store that starts empty
    lists its records newest first after any sequence of creates, updates
    and deletes: each [created_at] is greater, as a string, than all that
    follow it. *)
Theorem local_ops_newest_first (ops : list App.TabOp) (w : Browser) :
  advancing w ->
  (forall k, (k < ticks (local_ops ops w))%nat ->
             Date.fourDigitYear (clock w k)) ->
  stored w = [] ->
  newest_first (map created_at (stored (local_ops ops w))).
Proof.
  intros Hadv Hrange Hempty.
  assert (Hinv : created_in_order w []).
  { unfold created_in_order, created_at_readings. rewrite Hempty.
    repeat split. intros k Hk. by apply elem_of_nil in Hk. }
  destruct (local_ops_order ops w [] Hinv) as (ks & Hmap & Hdesc & Hbound).
  unfold created_at_readings in Hmap. rewrite Hmap, local_ops_clock.
  apply descending_newest_first; auto.
Qed.

End LocalOrder.

(** ** The App: bookkeeping, banner and start-up *)

Section AppBookkeeping.

Import App.

Lemma step_keeps_count (y : System) (e : Event) :
  lastGameCount (app y) = length (games (app y)) ->
  lastGameCount (app (step y e)) = length (games (app (step y e))).
Proof.
  intros Hcount. destruct e; simpl;
    unfold postgres_changes, storage_event, other_tab, handleEditGame,
      handleAddGame, handleUpdateGame, handleDeleteGame, handleReloadGames,
      handleDismissNotification, onChanges;
    repeat (case_match; simpl); auto.
Qed.

Lemma initializeSupabase_count (env : Env)
    (createClient : string -> string -> Completion unit) (h : Hosted)
    (y : System) :
  lastGameCount (app (initializeSupabase env createClient h y))
  = length (games (app (initializeSupabase env createClient h y))).
Proof.
  unfold initializeSupabase, fallback, gameService.getGames.
  repeat (case_match; simpl); auto.
Qed.

(** The size bookkeeping is exact: after start-up and after every later
    event, [lastGameCount] is the number of displayed games, whichever
    store is in use. *)
Theorem lastGameCount_is_size (env : Env)
    (createClient : string -> string -> Completion unit) (h : Hosted)
    (w : Browser) (es : list Event) :
  lastGameCount (app (session env createClient h w es))
  = length (games (app (session env createClient h w es))).
Proof.
  unfold session.
  generalize (initializeSupabase_count env createClient h (mount w)).
  generalize (initializeSupabase env createClient h (mount w)).
  induction es as [|e es IH]; intros y Hy; [exact Hy|].
  apply (IH (step y e)), step_keeps_count, Hy.
Qed.

(** The banner through one event: "Later" and "Reload Now" hide it, a
    delivered change never hides it, and nothing else touches it; in
    particular no action of the user's own raises it. *)
Theorem banner_through_event (y : System) (e : Event) :
  match e with
  | ClickLater | ClickReload _ => showNotification (app (step y e)) = false
  | PostgresChanges _ | StorageEvent _ =>
      showNotification (app y) = true -> showNotification (app (step y e)) = true
  | _ => showNotification (app (step y e)) = showNotification (app y)
  end.
Proof.
  destruct e; simpl;
    unfold postgres_changes, storage_event, other_tab, handleEditGame,
      handleAddGame, handleUpdateGame, handleDeleteGame, handleReloadGames,
      handleDismissNotification, onChanges;
    repeat (case_match; simpl); auto.
Qed.

(** A start-up whose import succeeds selects the hosted store, marks the
    App connected and subscribed to the hosted store, and shows what the
    hosted store lists. When that first listing fails the App shows an
    empty collection and stays on the hosted store: there is no fallback,
    and the local storage is not consulted. *)
Theorem start_connected (env : Env)
    (createClient : string -> string -> Completion unit) (h : Hosted)
    (w : Browser) (v : Service) :
  import_supabase env createClient = Normal v ->
  let y0 := session env createClient h w [] in
  getGameService (app y0) = Remote
  /\ isSupabaseConnected (app y0) = true
  /\ subscriptionEffect (app y0) = Some Remote
  /\ isLoading (app y0) = false
  /\ browser y0 = w
  /\ match error (select_desc h) with
     | Some e => games (app y0) = []
                 /\ console y0 = ["Error fetching games: " +:+ e]
     | None => games (app y0) = default [] (data (select_desc h))
               /\ console y0 = []
     end.
Proof.
  intros Himp y0.
  assert (v = Remote) as ->.
  { unfold import_supabase in Himp. repeat case_match; congruence. }
  unfold y0, session, run. cbn [fold_left].
  unfold initializeSupabase. rewrite Himp. unfold gameService.getGames.
  destruct (error (select_desc h)); simpl; repeat split.
Qed.

(** On the hosted store the user's own create is silent: once the
    returned row is on the page, the change event that follows, listing as
    many games as the page now shows, replaces the page by that listing
    and leaves the banner as it was. *)
Theorem own_create_is_silent (h h' : Hosted) (y : System) (r : Game)
    (l : list Game) :
  gameService (app y) = Some Remote ->
  f_title (newGame (app y)) <> "" -> f_url (newGame (app y)) <> "" ->
  insert_single h (newGame (app y)) = mkReply (Some r) None ->
  select_desc h' = mkReply (Some l) None ->
  length l = S (length (games (app y))) ->
  let y1 := handleAddGame h y in
  let y2 := postgres_changes h' y1 in
  games (app y1) = r :: games (app y)
  /\ games (app y2) = l
  /\ showNotification (app y2) = showNotification (app y).
Proof.
  intros Hsvc Ht Hu Hins Hsel Hlen y1 y2.
  assert (Hy1 : app y1 = setShowAddGame false (setNewGame blankGame
                  (setLastGameCount (S (length (games (app y))))
                     (setGames (r :: games (app y)) (app y))))).
  { unfold y1, handleAddGame, getGameService, truthy. rewrite Hsvc.
    rewrite !bool_decide_eq_false_2 by assumption. simpl.
    unfold gameService.addGame. rewrite Hins. reflexivity. }
  assert (Hy2 : app y2 = onChanges l (app y1)).
  { apply postgres_changes_delivers; [|by rewrite Hsel..].
    unfold subscriptionEffect, getGameService. rewrite Hy1. simpl.
    by rewrite Hsvc. }
  split; [by rewrite Hy1|]. split.
  - rewrite Hy2. apply onChanges_games.
  - rewrite Hy2, onChanges_banner, Hy1. simpl.
    rewrite (bool_decide_eq_false_2 (S (length (games (app y))) < length l)%nat)
      by lia.
    rewrite ?andb_false_r. simpl. by rewrite ?andb_false_r, ?orb_false_r.
Qed.

End AppBookkeeping.

(** ** The App: the admin handlers *)

Section AppHandlers.

Import App.

(** A click on "Add Game" or "Update Game" with an empty title or an
    empty URL in the form, and a delete that is not confirmed, do nothing
    at all: no request, no write, no change of state, on either store. *)
Theorem incomplete_form_is_ignored (h : Hosted) (y : System) (gameId : string) :
  f_title (newGame (app y)) = "" \/ f_url (newGame (app y)) = "" ->
  handleAddGame h y = y
  /\ handleUpdateGame h y = y
  /\ handleDeleteGame gameId false h y = y.
Proof.
  intros Hempty.
  assert (Hguard : truthy (f_title (newGame (app y)))
                   && truthy (f_url (newGame (app y))) = false).
  { unfold truthy. destruct Hempty as [-> | ->]; simpl; [done|].
    apply andb_false_r. }
  unfold handleAddGame, handleUpdateGame, handleDeleteGame. rewrite Hguard.
  split; [done|]. split; [|done]. by destruct (editingGame (app y)).
Qed.

(** On the hosted store a write that the backend answers with an error
    leaves the displayed collection and the form as they were. A failed
    delete tells the user in an alert box; a failed create or update only
    writes to the console. *)
Theorem hosted_write_failure (h : Hosted) (y : System) (gameId : string) :
  gameService (app y) = Some Remote ->
  (forall game, error (insert_single h game) <> None) ->
  (forall i u stamp, error (update_single h i u stamp) <> None) ->
  error (delete_eq h gameId) <> None ->
  (app (handleAddGame h y) = app y /\ alerts (handleAddGame h y) = alerts y)
  /\ (app (handleUpdateGame h y) = app y
      /\ alerts (handleUpdateGame h y) = alerts y)
  /\ (app (handleDeleteGame gameId true h y) = app y
      /\ alerts (handleDeleteGame gameId true h y)
         = (alerts y ++ ["Failed to delete game. Please try again."])%list).
Proof.
  intros Hsvc Hins Hupd Hdel. split; [|split].
  - unfold handleAddGame, getGameService. rewrite Hsvc. simpl.
    unfold gameService.addGame. specialize (Hins (newGame (app y))).
    destruct (error _); [|done]. by case_match.
  - unfold handleUpdateGame, getGameService. rewrite Hsvc. simpl.
    destruct (editingGame (app y)) as [editing|]; [|done].
    case_match; [|done].
    unfold gameService.updateGame, mbind, Async_bind. simpl.
    match goal with |- context [error ?r] => specialize (Hupd (id editing)
      (all_fields (newGame (app y)))
      (Date.toISOString (clock (browser y) (ticks (browser y))))) end.
    destruct (error _); [|done]. done.
  - unfold handleDeleteGame, getGameService. rewrite Hsvc. simpl.
    unfold gameService.deleteGame. destruct (error _); [|done]. done.
Qed.

(** "Reload Now" shows exactly what the selected store lists at that
    moment, hides the banner and ends the loading state. On the hosted
    store a listing that fails therefore empties the page. *)
Theorem reload_shows_listing (h : Hosted) (y : System) :
  let y' := handleReloadGames h y in
  showNotification (app y') = false
  /\ isLoading (app y') = false
  /\ lastGameCount (app y') = length (games (app y'))
  /\ games (app y') =
     match getGameService (app y) with
     | Local => stored (browser y)
     | Remote =>
         match error (select_desc h) with
         | Some _ => []
         | None => default [] (data (select_desc h))
         end
     end.
Proof.
  unfold handleReloadGames. simpl.
  change (getGameService (setIsLoading true (app y)))
    with (getGameService (app y)).
  destruct (getGameService (app y)); simpl.
  - unfold gameService.getGames. destruct (error (select_desc h)); simpl; done.
  - done.
Qed.

(** Opening the editor on a stored game and saving the form untouched
    changes nothing of that game but its [updated_at]; the editor closes
    and the form is blank again. (Local store; the game is the first
    stored record with its id, and has a title and a URL.) *)
Theorem edit_then_save_untouched (h : Hosted) (y : System) (g : Game) (k : nat) :
  gameService (app y) = None ->
  localStorageService.findIndex (id g) (stored (browser y)) = Some (k, g) ->
  title g <> "" -> url g <> "" ->
  let y' := handleUpdateGame h (handleEditGame g y) in
  let g' := mkGame (id g) (title g) (description g) (category g) (color g)
                   (url g) (created_at g)
                   (Date.toISOString (clock (browser y) (ticks (browser y)))) in
  stored (browser y') = <[k := g']> (stored (browser y))
  /\ games (app y')
     = map (fun x => if bool_decide (id x = id g) then g' else x) (games (app y))
  /\ editingGame (app y') = None
  /\ newGame (app y') = blankGame.
Proof.
  intros Hsvc Hfind Ht Hu y' g'.
  unfold y', handleUpdateGame, handleEditGame, getGameService. simpl.
  rewrite Hsvc. simpl. unfold truthy.
  rewrite !bool_decide_eq_false_2 by assumption. simpl.
  unfold mbind, Async_bind.
  rewrite (updateGame_found (id g) _ (browser y) k g Hfind). simpl.
  repeat split.
Qed.

End AppHandlers.

(** ** The App on the local store: display and storage in step *)

Section LocalSession.

Import App.

Lemma replace_absent (i : string) (g' : Game) (l : list Game) :
  i ∉ map id l ->
  map (fun x => if bool_decide (id x = i) then g' else x) l = l.
Proof.
  induction l as [|x l IH]; [done|]. simpl. intros Hnotin.
  rewrite bool_decide_eq_false_2, IH; [done| |].
  - intros Hin. apply Hnotin. by right.
  - intros Heq. apply Hnotin. rewrite Heq. left.
Qed.

(** With pairwise distinct ids, replacing every displayed record that has
    the id is the same as overwriting the one slot the store found. *)
Lemma replace_is_insert (i : string) (g g' : Game) (l : list Game) : forall k,
  NoDup (map id l) ->
  localStorageService.findIndex i l = Some (k, g) ->
  map (fun x => if bool_decide (id x = i) then g' else x) l = <[k := g']> l.
Proof.
  unfold localStorageService.findIndex.
  induction l as [|x l IH]; intros k Hnd Hfind; [discriminate|].
  simpl in Hnd. apply NoDup_cons in Hnd as [Hnotin Hnd].
  cbn [list_find] in Hfind. destruct (decide (id x = i)) as [Heq|Hne].
  - injection Hfind as <- <-. simpl.
    rewrite bool_decide_eq_true_2 by assumption. f_equal.
    apply replace_absent. by rewrite <- Heq.
  - destruct (list_find (fun g0 => id g0 = i) l) as [[k' g0]|] eqn:Hl;
      [|discriminate].
    simpl in Hfind. injection Hfind as <- <-. simpl.
    rewrite bool_decide_eq_false_2 by assumption. f_equal. by apply IH.
Qed.

Lemma step_in_step (y : System) (e : Event) :
  in_step y -> solo e -> in_step (step y e).
Proof.
  intros (Hsvc & Hconn & Hsync & Hadv & Hst & Hnd) Hsolo.
  destruct (step_keeps_selection y e) as [Hs Hc].
  enough (Hrest :
            (games (app (step y e)) = games (app y)
             /\ browser (step y e) = browser y)
            \/ exists op, browser (step y e) = local_op op (browser y)
                          /\ games (app (step y e))
                             = stored (local_op op (browser y))).
  { unfold in_step. rewrite Hs, Hc.
    destruct Hrest as [[-> ->]|(op & -> & ->)]; [done|].
    destruct (local_op_unique op (browser y) Hadv Hst Hnd) as (? & ? & ?).
    done. }
  clear Hs Hc. destruct e; simpl in *; try contradiction;
    try (left; split; reflexivity).
  - left. unfold postgres_changes, subscriptionEffect.
    by rewrite Hsvc, Hconn.
  - left. unfold storage_event, subscriptionEffect.
    by rewrite Hsvc, Hconn.
  - unfold handleAddGame, getGameService. rewrite Hsvc. simpl.
    case_match; [|by left].
    right. exists (TabAdd (newGame (app y))). simpl. by rewrite Hsync.
  - unfold handleUpdateGame, getGameService. rewrite Hsvc. simpl.
    destruct (editingGame (app y)) as [editing|]; [|by left].
    case_match; [|by left].
    unfold updateGame, mbind, Async_bind.
    destruct (localStorageService.findIndex (id editing) (stored (browser y)))
      as [[k g]|] eqn:Hfind.
    + right. exists (TabUpdate (id editing) (all_fields (newGame (app y)))).
      cbn [local_op].
      rewrite (updateGame_found _ (all_fields (newGame (app y))) _ k g Hfind).
      simpl. split; [done|]. rewrite Hsync. by apply (replace_is_insert _ g).
    + left.
      by rewrite (updateGame_missing _ (all_fields (newGame (app y))) _ Hfind).
  - unfold handleDeleteGame, getGameService. rewrite Hsvc. simpl.
    destruct confirmed; [|by left]. simpl.
    right. exists (TabDelete gameId). simpl. by rewrite Hsync.
  - left. unfold handleReloadGames, getGameService. simpl. rewrite Hsvc. simpl.
    by rewrite Hsync.
Qed.

(** In a session that fell back to the local store, as long as no other
    tab writes to the storage, the page shows exactly what is stored after
    every event: creates, updates, deletes and reloads keep display and
    storage equal. The clock is assumed to show a later time at every
    reading and the ids stored at start-up to be distinct numerals of
    earlier readings. *)
Theorem local_session_in_step (env : Env)
    (createClient : string -> string -> Completion unit) (h : Hosted)
    (w : Browser) (es : list Event) (e : string) :
  import_supabase env createClient = Throw e ->
  advancing w -> stamped_ids w -> NoDup (map id (stored w)) ->
  Forall solo es ->
  games (app (session env createClient h w es))
  = stored (browser (session env createClient h w es)).
Proof.
  intros Himp Hadv Hst Hnd Hsolo.
  assert (H0 : in_step (initializeSupabase env createClient h (mount w))).
  { destruct (initializeSupabase_fallback env createClient h (mount w) e Himp)
      as [Happ Hbr].
    unfold in_step. rewrite Happ, Hbr. simpl. done. }
  unfold session.
  revert H0. generalize (initializeSupabase env createClient h (mount w)).
  induction Hsolo as [|e0 es He0 _ IH]; intros y Hy; [apply Hy|].
  apply (IH (step y e0)). by apply step_in_step.
Qed.

End LocalSession.

(** ** The keyboard: the secret sequence *)

Section Keyboard.

Import Page.

Lemma prefix_refl (t : string) : String.prefix t t = true.
Proof.
  induction t as [|c t IH]; [done|]. simpl.
  by destruct (ascii_dec c c).
Qed.

Lemma includes_app (a t : string) : includes (a +:+ t) t = true.
Proof.
  induction a as [|c a IH].
  - rewrite append_nil_l. destruct t as [|c t]; [done|].
    cbn [includes]. by rewrite prefix_refl.
  - rewrite append_cons. cbn [includes]. rewrite IH. apply orb_true_r.
Qed.

Lemma drop_units_length (n : nat) : forall s,
  String.length (drop_units n s) = (String.length s - n)%nat.
Proof.
  induction n as [|n IH]; intros [|c s]; simpl; auto.
Qed.

Lemma drop_units_app (n : nat) : forall a p,
  (n <= String.length a)%nat -> drop_units n (a +:+ p) = drop_units n a +:+ p.
Proof.
  induction n as [|n IH]; intros a p Hn; [done|].
  destruct a as [|c a]; [simpl in Hn; lia|].
  rewrite append_cons. cbn [drop_units]. apply IH. simpl in Hn. lia.
Qed.

Lemma append_length (a b : string) :
  String.length (a +:+ b) = (String.length a + String.length b)%nat.
Proof.
  induction a as [|c a IH]; [done|]. rewrite append_cons. simpl. by rewrite IH.
Qed.

Lemma append_assoc (a b c : string) : (a +:+ b) +:+ c = a +:+ (b +:+ c).
Proof.
  induction a as [|x a IH]; [done|]. by rewrite !append_cons, IH.
Qed.

(** Cutting to the last ten code units keeps any ending of at most ten. *)
Lemma slice_last_keeps (a p : string) :
  (String.length p <= 10)%nat ->
  exists a', slice_last 10 (a +:+ p) = a' +:+ p.
Proof.
  intros Hp. unfold slice_last. rewrite append_length.
  exists (drop_units (String.length a + String.length p - 10) a).
  apply drop_units_app. lia.
Qed.

(** What one key press does to the secret sequence and to admin mode. *)
Lemma handleKeyPress_secret (key : string) (su : App.State * UI) :
  let newSequence := secretSequence (snd su) +:+ key in
  isAdminMode (snd (handleKeyPress key su))
  = isAdminMode (snd su) || includes newSequence "admin123"
  /\ secretSequence (snd (handleKeyPress key su))
     = if includes newSequence "admin123" then ""
       else if bool_decide (10 < String.length newSequence)%nat
            then slice_last 10 newSequence else newSequence.
Proof.
  destruct su as [s u]. unfold handleKeyPress. simpl snd.
  destruct (bool_decide (key = "\")), (bool_decide (key = "Escape")); simpl;
    destruct (bool_decide (10 < _)%nat); simpl;
    destruct (includes _ "admin123"); simpl;
    by rewrite ?orb_true_r, ?orb_false_r.
Qed.

(** The buffer of typed keys never holds more than ten code units,
    whatever key is pressed, and admin mode is switched on exactly when
    the buffer followed by the key contains admin123; no key switches it
    off. *)
Theorem key_press_bounded (key : string) (su : App.State * UI) :
  (String.length (secretSequence (snd (handleKeyPress key su))) <= 10)%nat
  /\ isAdminMode (snd (handleKeyPress key su))
     = isAdminMode (snd su)
       || includes (secretSequence (snd su) +:+ key) "admin123".
Proof.
  destruct (handleKeyPress_secret key su) as [Hadmin Hseq].
  split; [|exact Hadmin]. rewrite Hseq.
  destruct (includes _ "admin123"); [simpl; lia|].
  case_bool_decide as Hlen.
  - unfold slice_last. rewrite drop_units_length. lia.
  - lia.
Qed.

Lemma typed_step (done key : string) (su : App.State * UI) :
  typed done (snd su) ->
  (String.length (done +:+ key) <= 10)%nat ->
  typed (done +:+ key) (snd (handleKeyPress key su))
  /\ (done +:+ key = "admin123" ->
      isAdminMode (snd (handleKeyPress key su)) = true).
Proof.
  intros Htyped Hlen.
  destruct (handleKeyPress_secret key su) as [Hadmin Hseq].
  destruct Htyped as [Hon|[a Ha]].
  - rewrite Hon in Hadmin. split; [by left|done].
  - rewrite Ha, append_assoc in Hadmin, Hseq.
    destruct (includes (a +:+ done +:+ key) "admin123") eqn:Hinc.
    + rewrite orb_true_r in Hadmin. split; [by left|done].
    + split.
      * right. rewrite Hseq. case_bool_decide.
        -- by apply slice_last_keeps.
        -- by exists a.
      * intros Hword. rewrite Hword, includes_app in Hinc. discriminate.
Qed.

(** Typing a, d, m, i, n, 1, 2, 3 switches admin mode on, whatever was
    typed before and whatever state the page is in. *)
Theorem typing_admin123_unlocks (su : App.State * UI) :
  isAdminMode (snd (type_keys ["a"; "d"; "m"; "i"; "n"; "1"; "2"; "3"] su))
  = true.
Proof.
  assert (H0 : typed "" (snd su)).
  { right. exists (secretSequence (snd su)). by rewrite string_app_nil. }
  unfold type_keys. cbn [fold_left].
  destruct (typed_step "" "a" su H0) as [H1 _]; [simpl; lia|].
  destruct (typed_step _ "d" _ H1) as [H2 _]; [simpl; lia|].
  destruct (typed_step _ "m" _ H2) as [H3 _]; [simpl; lia|].
  destruct (typed_step _ "i" _ H3) as [H4 _]; [simpl; lia|].
  destruct (typed_step _ "n" _ H4) as [H5 _]; [simpl; lia|].
  destruct (typed_step _ "1" _ H5) as [H6 _]; [simpl; lia|].
  destruct (typed_step _ "2" _ H6) as [H7 _]; [simpl; lia|].
  destruct (typed_step _ "3" _ H7) as [_ H8]; [simpl; lia|].
  by apply H8.
Qed.

End Keyboard.

(** ** The page: cards, notices and the connection badge *)

Section PageView.

Import Page.

Variable toLowerCase : string -> string.

Lemma includes_empty (s : string) : includes s "" = true.
Proof. by destruct s. Qed.

(** The grid never invents or reorders cards: the cards are games of the
    displayed collection, in its order, and with a category other than
    "All" selected every card is of that category. *)
Theorem filteredGames_sound (games : list Game) (u : UI) :
  filteredGames toLowerCase games u `sublist_of` games
  /\ (selectedCategory u <> "All" ->
      forall g, g ∈ filteredGames toLowerCase games u ->
                category g = selectedCategory u).
Proof.
  unfold filteredGames. split.
  - induction games as [|g l IH]; [done|]. simpl.
    case_match; by constructor.
  - intros Hcat g Hg. apply list_elem_of_In, filter_In in Hg as [_ Hg].
    apply andb_true_iff in Hg as [Hg _].
    rewrite (bool_decide_eq_false_2 _ Hcat) in Hg.
    by apply bool_decide_eq_true in Hg.
Qed.

(** With "All" selected and a search box whose content lower-cases to the
    empty string (an empty box), every game is a card. *)
Theorem filteredGames_all (games : list Game) (u : UI) :
  selectedCategory u = "All" ->
  toLowerCase (searchTerm u) = "" ->
  filteredGames toLowerCase games u = games.
Proof.
  intros Hcat Hterm. unfold filteredGames. rewrite Hcat, Hterm.
  induction games as [|g l IH]; [done|]. cbn [List.filter]. rewrite IH.
  rewrite (bool_decide_eq_true_2 ("All" = "All")) by done.
  by rewrite includes_empty.
Qed.

(** The main area always shows exactly one thing: the spinner, at least
    one card, the notice that there are no games, or the notice that no
    game matches the search. *)
Theorem main_area_shows_one (s : App.State) (u : UI) :
  let card := negb (bool_decide (cards toLowerCase s u = [])) in
  (showsSpinner s, card, showsNoGames s, showsNoMatch toLowerCase s u)
  ∈ [(true, false, false, false); (false, true, false, false);
     (false, false, true, false); (false, false, false, true)].
Proof.
  unfold cards, showsNoGames, showsNoMatch, showsGrid, showsSpinner.
  destruct (App.isLoading s); cbn [negb andb].
  - rewrite (bool_decide_eq_true_2 ([] = [])) by done.
    rewrite andb_false_r. apply list_elem_of_here.
  - destruct (App.games s) as [|g l].
    + rewrite (bool_decide_eq_false_2 (0 < length [])%nat) by (simpl; lia).
      rewrite (bool_decide_eq_true_2 ([] = [])) by done.
      rewrite andb_false_r. cbn [negb andb].
      do 2 apply list_elem_of_further. apply list_elem_of_here.
    + rewrite (bool_decide_eq_true_2 (0 < length (g :: l))%nat)
        by (simpl; lia).
      cbn [negb andb]. rewrite !andb_true_r.
      destruct (filteredGames toLowerCase (g :: l) u) as [|c cs].
      * rewrite (bool_decide_eq_true_2 ([] = [])) by done.
        rewrite (bool_decide_eq_true_2 (length [] = 0%nat)) by done.
        do 3 apply list_elem_of_further. apply list_elem_of_here.
      * rewrite (bool_decide_eq_false_2 (c :: cs = [])) by done.
        rewrite (bool_decide_eq_false_2 (length (c :: cs) = 0%nat)) by done.
        apply list_elem_of_further, list_elem_of_here.
Qed.

(** In a session that fell back to the local store the badge reads "Local
    Only" after every event, whether the browser is online or not. *)
Theorem badge_local_only (env : Env)
    (createClient : string -> string -> Completion unit) (h : Hosted)
    (w : Browser) (es : list App.Event) (e : string) :
  import_supabase env createClient = Throw e ->
  badge (App.app (session env createClient h w es)) = LocalOnly.
Proof.
  intros Himp.
  destruct (session_fallback_selection env createClient h w es e Himp)
    as [_ Hconn].
  unfold badge. by rewrite Hconn.
Qed.

End PageView.

(** ** Further concrete instances *)

Section FurtherInstances.

Import App.

Lemma ticking_advancing (t : Z) : advancing (ticking t).
Proof. intros j k Hjk. unfold ticking. cbn [clock]. lia. Qed.

Lemma empty_stamped (w : Browser) : stored w = [] -> stamped_ids w.
Proof. intros Hw i Hi. rewrite Hw in Hi. by apply elem_of_nil in Hi. Qed.

Lemma addGame_then_deleteGame_example :
  (toString (clock (still 1793560000123) (ticks (still 1793560000123)))
   ∉ map id (stored (still 1793560000123)))
  /\ exists g,
       fst (localStorageService.addGame maze (still 1793560000123)) = Some g
       /\ id g = "1793560000123"
       /\ stored (snd (localStorageService.deleteGame (id g)
                         (snd (localStorageService.addGame maze
                                 (still 1793560000123)))))
          = [].
Proof.
  assert (Hfresh : toString (clock (still 1793560000123)
                               (ticks (still 1793560000123)))
                   ∉ map id (stored (still 1793560000123))).
  { intros Hin. by apply elem_of_nil in Hin. }
  split; [exact Hfresh|].
  exact (addGame_then_deleteGame maze (still 1793560000123) Hfresh).
Defined.

Lemma local_ops_unique_ids_example :
  advancing (ticking 1793560000123)
  /\ stamped_ids (ticking 1793560000123)
  /\ NoDup (map id (stored (ticking 1793560000123)))
  /\ NoDup (map id (stored (local_ops busy_store (ticking 1793560000123)))).
Proof.
  split; [apply ticking_advancing|]. split; [by apply empty_stamped|].
  split; [constructor|].
  apply (local_ops_unique_ids busy_store (ticking 1793560000123)).
  - apply ticking_advancing.
  - by apply empty_stamped.
  - constructor.
Defined.

Lemma local_ops_newest_first_example :
  advancing (ticking 1793560000123)
  /\ stored (ticking 1793560000123) = []
  /\ newest_first
       (map created_at (stored (local_ops busy_store (ticking 1793560000123)))).
Proof.
  split; [apply ticking_advancing|]. split; [reflexivity|].
  apply (local_ops_newest_first busy_store (ticking 1793560000123)).
  - apply ticking_advancing.
  - intros k Hk.
    assert (Hticks : ticks (local_ops busy_store (ticking 1793560000123))
                     = 15%nat) by (vm_compute; reflexivity).
    rewrite Hticks in Hk.
    unfold Date.fourDigitYear, Date.year0, Date.year10000, ticking.
    cbn [clock]. lia.
  - reflexivity.
Defined.

Lemma start_connected_example :
  import_supabase configured client_ok = Normal Remote
  /\ let y0 := session configured client_ok unreachable (still 1793560000123) [] in
     getGameService (app y0) = Remote
     /\ subscriptionEffect (app y0) = Some Remote
     /\ games (app y0) = []
     /\ console y0 = ["Error fetching games: Failed to fetch"].
Proof.
  split; [reflexivity|].
  destruct (start_connected configured client_ok unreachable
              (still 1793560000123) Remote eq_refl)
    as (H1 & _ & H3 & _ & _ & H6 & H7).
  repeat split; assumption.
Defined.

Lemma incomplete_form_is_ignored_example :
  (f_title (newGame (app (mount (still 1793560000123)))) = ""
   \/ f_url (newGame (app (mount (still 1793560000123)))) = "")
  /\ handleAddGame unreachable (mount (still 1793560000123))
     = mount (still 1793560000123).
Proof.
  assert (H : f_title (newGame (app (mount (still 1793560000123)))) = ""
              \/ f_url (newGame (app (mount (still 1793560000123)))) = "")
    by (left; reflexivity).
  split; [exact H|].
  apply (incomplete_form_is_ignored unreachable (mount (still 1793560000123))
           "1793560000123" H).
Defined.

Lemma hosted_write_failure_example :
  let y := session configured client_ok (listing [g_maze])
                   (still 1793560000123) [TypeNewGame pong] in
  gameService (app y) = Some Remote
  /\ app (handleAddGame unreachable y) = app y
  /\ alerts (handleDeleteGame "7f3c" true unreachable y)
     = ["Failed to delete game. Please try again."].
Proof.
  intros y.
  assert (Hsvc : gameService (app y) = Some Remote) by reflexivity.
  split; [exact Hsvc|].
  destruct (hosted_write_failure unreachable y "7f3c" Hsvc)
    as ([Hadd _] & _ & [_ Hdel]); try (intros; discriminate).
  split; [exact Hadd|exact Hdel].
Defined.

Lemma edit_then_save_untouched_example :
  let w1 := snd (localStorageService.addGame maze (still 1793560000123)) in
  let y := session unconfigured client_ok unreachable w1 [] in
  let g := created maze (still 1793560000123) in
  gameService (app y) = None
  /\ localStorageService.findIndex (id g) (stored (browser y)) = Some (0%nat, g)
  /\ title g <> "" /\ url g <> ""
  /\ editingGame (app (handleUpdateGame unreachable (handleEditGame g y))) = None
  /\ map title (stored (browser (handleUpdateGame unreachable (handleEditGame g y))))
     = ["Maze"].
Proof.
  intros w1 y g.
  assert (Hsvc : gameService (app y) = None) by reflexivity.
  assert (Hfind : localStorageService.findIndex (id g) (stored (browser y))
                  = Some (0%nat, g)) by reflexivity.
  assert (Ht : title g <> "") by discriminate.
  assert (Hu : url g <> "") by discriminate.
  split; [exact Hsvc|]. split; [exact Hfind|]. split; [exact Ht|].
  split; [exact Hu|].
  destruct (edit_then_save_untouched unreachable y g 0 Hsvc Hfind Ht Hu)
    as (Hst & _ & Hed & _).
  split; [exact Hed|]. rewrite Hst. reflexivity.
Defined.

Lemma local_session_in_step_example :
  import_supabase unconfigured client_ok
  = Throw "Missing Supabase environment variables"
  /\ advancing (ticking 1793560000123)
  /\ Forall solo admin_session
  /\ games (app (session unconfigured client_ok unreachable
                   (ticking 1793560000123) admin_session))
     = stored (browser (session unconfigured client_ok unreachable
                          (ticking 1793560000123) admin_session)).
Proof.
  split; [reflexivity|]. split; [apply ticking_advancing|].
  assert (Hsolo : Forall solo admin_session) by (repeat constructor).
  split; [exact Hsolo|].
  apply (local_session_in_step unconfigured client_ok unreachable
           (ticking 1793560000123) admin_session
           "Missing Supabase environment variables").
  - reflexivity.
  - apply ticking_advancing.
  - by apply empty_stamped.
  - constructor.
  - exact Hsolo.
Defined.

Lemma own_create_is_silent_example :
  let y := session configured client_ok (listing [g_maze])
                   (still 1793560000123) [TypeNewGame pong] in
  gameService (app y) = Some Remote
  /\ games (app (postgres_changes (listing [g_pong; g_maze])
                   (handleAddGame (accepting g_pong []) y)))
     = [g_pong; g_maze]
  /\ showNotification (app (postgres_changes (listing [g_pong; g_maze])
                              (handleAddGame (accepting g_pong []) y)))
     = false.
Proof.
  intros y.
  assert (Hsvc : gameService (app y) = Some Remote) by reflexivity.
  split; [exact Hsvc|].
  destruct (own_create_is_silent (accepting g_pong []) (listing [g_pong; g_maze])
              y g_pong [g_pong; g_maze] Hsvc)
    as (_ & H2 & H3); try reflexivity; try discriminate.
  split; [exact H2|exact H3].
Defined.

Lemma filteredGames_all_example :
  Page.selectedCategory Page.initial = "All"
  /\ ascii_toLowerCase (Page.searchTerm Page.initial) = ""
  /\ Page.filteredGames ascii_toLowerCase [g_pong; g_maze] Page.initial
     = [g_pong; g_maze].
Proof.
  split; [reflexivity|]. split; [reflexivity|].
  apply (filteredGames_all ascii_toLowerCase); reflexivity.
Defined.

Lemma badge_local_only_example :
  import_supabase unconfigured client_ok
  = Throw "Missing Supabase environment variables"
  /\ Page.badge (app (session unconfigured client_ok unreachable
                        (still 1793560000123)
                        (busy_session ++ [Online false])))
     = Page.LocalOnly.
Proof.
  split; [reflexivity|].
  apply (badge_local_only unconfigured client_ok unreachable
           (still 1793560000123) (busy_session ++ [Online false])
           "Missing Supabase environment variables").
  reflexivity.
Defined.

End FurtherInstances.
